(** * Drought indices: the drivers of [indices.py]

    A shallow embedding of the index drivers of [indices.py] ([spi_gamma],
    [spi_pearson], [spei_gamma], [spei_pearson], [percentage_of_normal] and
    [pet]) together with the properties the specification states about them.

    Conventions of the embedding:
    - a one-dimensional [numpy] array of [float64] is a list of IEEE 754
      binary64 values ([spec_float] with 53 bits of precision);
    - an optional argument defaulting to [None] is an [option];
    - a raised exception, a call of [logger.error] and the entry into a
      function of another module ([compute], [thornthwaite]) are recorded by
      a small writer/error monad [M];
    - the functions of the modules [compute] and [thornthwaite], which are not
      part of [indices.py], are the fields of the class [Collaborators];
    - the [numba] decorators are not modelled: the bodies are read as plain
      Python with [numpy], where [a != None] on an array [a] compares element
      by element and an [if] on the result raises for more than one
      element. *)

From Stdlib Require Import ZArith List Bool Lia ZifyNat.
From Stdlib Require Import Floats.SpecFloat.
From stdpp Require Import base option list.

Local Open Scope Z_scope.

(** ** Binary64 values *)

Module Float64.

Definition prec : Z := 53.
Definition emax : Z := 1024.

Definition float64 : Type := spec_float.

Definition nan : float64 := S754_nan.
Definition zero : float64 := S754_zero false.

Definition isnan (x : float64) : bool :=
  match x with
  | S754_nan => true
  | _ => false
  end.

Definition add : float64 -> float64 -> float64 := SFadd prec emax.
Definition sub : float64 -> float64 -> float64 := SFsub prec emax.
Definition div : float64 -> float64 -> float64 := SFdiv prec emax.
Definition ltb : float64 -> float64 -> bool := SFltb.
Definition leb : float64 -> float64 -> bool := SFleb.

(** Conversion of an integer (a count of elements) to binary64. *)
Definition of_Z (n : Z) : float64 := binary_normalize prec emax n 0 false.

(** The literals of the source, as mantissa and exponent. *)
Definition lit_3_09 : float64 := S754_finite false 6958061424287416 (-51).
Definition lit_1000 : float64 := S754_finite false 8796093022208000 (-43).
Definition lit_90 : float64 := S754_finite false 6333186975989760 (-46).

End Float64.

Import Float64.

#[global] Instance float64_inhabited : Inhabited float64 := populate nan.

(** A one-dimensional [numpy.ndarray] of [float64]. *)
Abbreviation array := (list float64).

(** ** Exceptions, log records and the monad of the drivers *)

(** The messages of the source, one constructor per message. *)
Inductive message : Type :=
  | Incompatible_arguments
      (* 'Incompatible arguments: either temperature or PET arrays can be
         specified as arguments, but not both' *)
  | Missing_arguments
      (* 'Missing arguments: since temperature is provided as an input then
         both latitude and the data start year must also be specified, and
         one or both is not' *)
  | Incompatible_precipitation_and_temperature_arrays
  | Extraneous_arguments
      (* 'Extraneous arguments: since PET is provided as an input then ...' *)
  | Incompatible_precipitation_and_PET_arrays
  | Invalid_start_year_arguments
      (* 'Invalid start year arguments (data and/or calibration): calibration
         start year is before the data start year' *)
  | Invalid_calibration_period
      (* 'Invalid calibration period specified: total calibration years
         exceeds the actual number of years of data' *)
  | Invalid_latitude_value (latitude_degrees : float64)
      (* 'Invalid latitude value: {0} (must be in degrees north, between
         -90.0 and 90.0 inclusive)' *)
  | Operands_could_not_be_broadcast_together
      (* numpy, on an arithmetic operation between arrays of unequal sizes *)
  | Unsupported_operand_types
      (* numpy, on an arithmetic operation between an array and None *)
  | Truth_value_ambiguous
      (* numpy, on the truth value of an array that has not exactly one
         element: 'The truth value of an array with more than one element
         is ambiguous. Use a.any() or a.all()' *)
  | Index_out_of_bounds.

Inductive exn : Type :=
  | ValueError (msg : message)
  | TypeError (msg : message)
  | IndexError (msg : message).

(** The functions of other modules that the drivers call. *)
Inductive callee : Type :=
  | Sum_to_scale                      (* compute.sum_to_scale *)
  | Transform_fitted_gamma            (* compute.transform_fitted_gamma *)
  | Transform_fitted_pearson          (* compute.transform_fitted_pearson *)
  | Potential_evapotranspiration.     (* thornthwaite.potential_evapotranspiration *)

Inductive event : Type :=
  | Log_error (msg : message)   (* logger.error(message) *)
  | Called (f : callee).        (* control entered a function of another module *)

(** A computation yields the events it produced, in order, and either the
    exception that ended it or its value. *)
Definition M (A : Type) : Type := list event * (exn + A).

#[global] Instance M_ret : MRet M := fun A (a : A) => ([], inr a).

#[global] Instance M_bind : MBind M := fun A B (f : A -> M B) (m : M A) =>
  match m with
  | (t, inl e) => (t, inl e)
  | (t, inr a) => let '(t', r) := f a in (t ++ t', r)
  end.

Definition raise {A : Type} (e : exn) : M A := ([], inl e).

Definition logger_error (msg : message) : M unit := ([Log_error msg], inr tt).

(** Entering the function [f] of another module, which returns [r]. *)
Definition call {A : Type} (f : callee) (r : exn + A) : M A := ([Called f], r).

(** [for i in is: s = body(i, s)]. *)
Fixpoint for_each {S : Type} (range : list nat) (body : nat -> S -> M S) (s : S) : M S :=
  match range with
  | [] => mret s
  | i :: range' => s' ← body i s; for_each range' body s'
  end.

(** ** The [numpy] operations used by the drivers *)

(** [x != None] for a scalar argument [x] (a number or [None]). *)
Definition is_not_None {A : Type} (x : option A) : bool :=
  match x with
  | Some _ => true
  | None => false
  end.

(** [np.maximum] and [np.minimum]: a NaN operand is propagated. *)
Definition np_maximum (x y : float64) : float64 :=
  if isnan x then x else if isnan y then y else if ltb y x then x else y.

Definition np_minimum (x y : float64) : float64 :=
  if isnan x then x else if isnan y then y else if ltb x y then x else y.

(** [np.clip(a, a_min, a_max)], that is [minimum(maximum(a, a_min), a_max)]
    element by element. *)
Definition np_clip (a : array) (a_min a_max : float64) : array :=
  map (fun x => np_minimum (np_maximum x a_min) a_max) a.

(** [np.full((n,), fill_value)]. *)
Definition np_full (n : nat) (fill_value : float64) : array := replicate n fill_value.

(** [a - b] for one-dimensional arrays: element by element when the sizes
    agree, an array of size one is broadcast, other sizes raise.  With [b]
    being [None] every element of [a] raises a [TypeError]; an empty [a] has
    none and gives an empty array. *)
Definition np_subtract (a : array) (b : option array) : M array :=
  match b with
  | None =>
      match a with
      | [] => mret []
      | _ :: _ => raise (TypeError Unsupported_operand_types)
      end
  | Some b =>
      if (length a =? length b)%nat then mret (zip_with sub a b)
      else
        match a, b with
        | _, [y] => mret (map (fun x => sub x y) a)
        | [x], _ => mret (map (fun y => sub x y) b)
        | _, _ => raise (ValueError Operands_could_not_be_broadcast_together)
        end
  end.

(** [a + c] for an array [a] and a scalar [c]. *)
Definition np_add_scalar (a : array) (c : float64) : array :=
  map (fun x => add x c) a.

(** [a[i]] and [a[i] = v] for a non-negative index [i]. *)
Definition getitem (a : array) (i : nat) : M float64 :=
  match a !! i with
  | Some x => mret x
  | None => raise (IndexError Index_out_of_bounds)
  end.

Definition setitem (a : array) (i : nat) (v : float64) : M array :=
  if (i <? length a)%nat then mret (<[i := v]> a)
  else raise (IndexError Index_out_of_bounds).

(** The position a slice bound [i] denotes in a sequence of [n] elements:
    a negative bound counts from the end, and the result is clamped to
    [0 .. n]. *)
Definition slice_bound (n : nat) (i : Z) : nat :=
  Z.to_nat (Z.min (Z.of_nat n) (Z.max 0 (if i <? 0 then i + Z.of_nat n else i))).

(** [xs[start:stop]]. *)
Definition py_slice {A : Type} (xs : list A) (start stop : Z) : list A :=
  let lo := slice_bound (length xs) start in
  let hi := slice_bound (length xs) stop in
  take (hi - lo) (drop lo xs).

(** [xs[start::step]] for [start >= 0] and [step >= 1]: [skip] elements are
    passed over, the next one is kept, and so on with [step - 1]. *)
Fixpoint py_stride_aux {A : Type} (step skip : nat) (xs : list A) : list A :=
  match xs with
  | [] => []
  | x :: xs' =>
      match skip with
      | O => x :: py_stride_aux step (step - 1) xs'
      | S skip' => py_stride_aux step skip' xs'
      end
  end.

Definition py_stride {A : Type} (xs : list A) (start step : nat) : list A :=
  py_stride_aux step start xs.

(** ** The functions of the other modules *)

(** What [indices.py] calls in [compute], [thornthwaite] and, for the
    reduction inside [np.nanmean] and the truth value of an empty array, in
    [numpy].  Each of the first four may raise.  Arrays are flat: the
    reshaping of a transformed array to rows of twelve months and the
    [flatten()] that undoes it are not modelled, only the possibly longer
    (padded) result. *)
Class Collaborators : Type := {
  sum_to_scale : array -> Z -> exn + array;
  transform_fitted_gamma : array -> exn + array;
  transform_fitted_pearson : array -> Z -> Z -> Z -> exn + array;
  potential_evapotranspiration : array -> float64 -> Z -> exn + array;
  (** [np.add.reduce]: the sum of the elements, in numpy's order of
      association. *)
  np_sum : array -> float64;
  (** Whether the truth value of an empty array is an error: up to numpy 2.1
      it is [False], with a deprecation warning; from numpy 2.2 on it raises
      a [ValueError]. *)
  empty_array_is_an_error : bool
}.

(** ** [indices.py] *)

Section Indices.

Context {C : Collaborators}.

(** valid upper and lower bounds for indices that are fitted/transformed to
    a distribution (SPI and SPEI) *)
Definition _FITTED_INDEX_VALID_MIN : float64 := SFopp lit_3_09.
Definition _FITTED_INDEX_VALID_MAX : float64 := lit_3_09.

(** [np.nanmean(a)]: the NaNs are replaced by zero, the array is summed and
    the sum is divided by the number of elements that are not NaN.  For an
    empty slice, and for one of NaNs only, the count is zero. *)
Definition np_nanmean (a : array) : float64 :=
  let arr := map (fun x => if isnan x then zero else x) a in
  let cnt := length (filter (fun x => isnan x = false) a) in
  div (np_sum arr) (of_Z (Z.of_nat cnt)).

Definition pet (temperature_monthly_celsius : array) (latitude_degrees : float64)
    (data_start_year : Z) : M array :=
  if negb (forallb isnan temperature_monthly_celsius) then
    if negb (isnan latitude_degrees)
       && ltb latitude_degrees lit_90
       && ltb (SFopp lit_90) latitude_degrees
    then
      (* compute and return the PET values using Thornthwaite's equation *)
      call Potential_evapotranspiration
        (potential_evapotranspiration temperature_monthly_celsius latitude_degrees
           data_start_year)
    else
      let message := Invalid_latitude_value latitude_degrees in
      logger_error message;;
      raise (ValueError message)
  else
    (* we started with all NaNs for the temperature, so just return the same *)
    mret temperature_monthly_celsius.

Definition spi_gamma (precips : array) (months_scale : Z) : M array :=
  let original_length := length precips in
  scaled_precips ← call Sum_to_scale (sum_to_scale precips months_scale);
  transformed_fitted_values ←
    call Transform_fitted_gamma (transform_fitted_gamma scaled_precips);
  let spi :=
    np_clip transformed_fitted_values _FITTED_INDEX_VALID_MIN _FITTED_INDEX_VALID_MAX in
  mret (py_slice spi 0 (Z.of_nat original_length)).

Definition spi_pearson (precips : array) (months_scale data_start_year
    calibration_year_initial calibration_year_final : Z) : M array :=
  let original_length := length precips in
  scaled_precips ← call Sum_to_scale (sum_to_scale precips months_scale);
  transformed_fitted_values ←
    call Transform_fitted_pearson
      (transform_fitted_pearson scaled_precips data_start_year
         calibration_year_initial calibration_year_final);
  let spi :=
    np_clip transformed_fitted_values _FITTED_INDEX_VALID_MIN _FITTED_INDEX_VALID_MAX in
  mret (py_slice spi 0 (Z.of_nat original_length)).

(** [logger.error(message); raise ValueError(message)]. *)
Definition invalid_arguments {A : Type} (message : message) : M A :=
  logger_error message;;
  raise (ValueError message).

(** The test [if a != None:] for an argument [a] that is an array or
    [None].  [None != None] is [False].  On an array numpy compares element
    by element, every element of a float array being unequal to [None], and
    the [if] takes the truth value of the resulting array: that of its
    element when it has one, a [ValueError] when it has more. *)
Definition array_ne_None (a : option array) : M bool :=
  match a with
  | None => mret false
  | Some [] =>
      if empty_array_is_an_error then raise (ValueError Truth_value_ambiguous)
      else mret false
  | Some [_] => mret true
  | Some (_ :: _ :: _) => raise (ValueError Truth_value_ambiguous)
  end.

Definition spei_gamma (months_scale : Z) (precips_mm : array)
    (pet_mm temps_celsius : option array) (data_start_year : option Z)
    (latitude_degrees : option float64) : M array :=
  (* validate the function's argument combinations *)
  pet_mm ←
    (temps_given ← array_ne_None temps_celsius;
     match temps_given, temps_celsius return M (option array) with
     | true, Some temps =>
         pet_given ← array_ne_None pet_mm;
         if pet_given : bool then invalid_arguments Incompatible_arguments
         else
           match latitude_degrees, data_start_year with
           | Some latitude, Some year =>
               if negb (length precips_mm =? length temps)%nat then
                 invalid_arguments Incompatible_precipitation_and_temperature_arrays
               else
                 (* compute PET *)
                 pet_values ← pet temps latitude year;
                 mret (Some pet_values)
           | _, _ => invalid_arguments Missing_arguments
           end
     | _, _ =>
         pet_given ← array_ne_None pet_mm;
         match pet_given, pet_mm with
         | true, Some pet_values =>
             temps_given ← array_ne_None temps_celsius;
             if temps_given : bool then invalid_arguments Incompatible_arguments
             else if is_not_None latitude_degrees
                     || is_not_None data_start_year then
               invalid_arguments Extraneous_arguments
             else if negb (length precips_mm =? length pet_values)%nat then
               invalid_arguments Incompatible_precipitation_and_PET_arrays
             else mret pet_mm
         | _, _ => mret pet_mm
         end
     end);
  (* subtract the PET from precipitation, adding an offset *)
  difference ← np_subtract precips_mm pet_mm;
  let p_minus_pet := np_add_scalar difference lit_1000 in
  let original_length := length precips_mm in
  scaled_values ← call Sum_to_scale (sum_to_scale p_minus_pet months_scale);
  transformed_fitted_values ←
    call Transform_fitted_gamma (transform_fitted_gamma scaled_values);
  let spei :=
    np_clip transformed_fitted_values _FITTED_INDEX_VALID_MIN _FITTED_INDEX_VALID_MAX in
  mret (py_slice spei 0 (Z.of_nat original_length)).

Definition spei_pearson (months_scale data_start_year : Z) (precips_mm : array)
    (pet_mm temps_celsius : option array) (latitude_degrees : option float64)
    (calibration_year_initial calibration_year_final : Z) : M array :=
  (* validate the function's argument combinations *)
  pet_mm ←
    (temps_given ← array_ne_None temps_celsius;
     match temps_given, temps_celsius return M (option array) with
     | true, Some temps =>
         pet_given ← array_ne_None pet_mm;
         if pet_given : bool then invalid_arguments Incompatible_arguments
         else
           match latitude_degrees with
           | None => invalid_arguments Missing_arguments
           | Some latitude =>
               if negb (length precips_mm =? length temps)%nat then
                 invalid_arguments Incompatible_precipitation_and_temperature_arrays
               else
                 (* compute PET *)
                 pet_values ← pet temps latitude data_start_year;
                 mret (Some pet_values)
           end
     | _, _ =>
         pet_given ← array_ne_None pet_mm;
         match pet_given, pet_mm with
         | true, Some pet_values =>
             temps_given ← array_ne_None temps_celsius;
             if temps_given : bool then invalid_arguments Incompatible_arguments
             else if is_not_None latitude_degrees then
               invalid_arguments Extraneous_arguments
             else if negb (length precips_mm =? length pet_values)%nat then
               invalid_arguments Incompatible_precipitation_and_PET_arrays
             else mret pet_mm
         | _, _ => mret pet_mm
         end
     end);
  (* subtract the PET from precipitation, adding an offset *)
  difference ← np_subtract precips_mm pet_mm;
  let p_minus_pet := np_add_scalar difference lit_1000 in
  let original_length := length precips_mm in
  scaled_values ← call Sum_to_scale (sum_to_scale p_minus_pet months_scale);
  transformed_fitted_values ←
    call Transform_fitted_pearson
      (transform_fitted_pearson scaled_values data_start_year
         calibration_year_initial calibration_year_final);
  let spei :=
    np_clip transformed_fitted_values _FITTED_INDEX_VALID_MIN _FITTED_INDEX_VALID_MAX in
  mret (py_slice spei 0 (Z.of_nat original_length)).

(** The defaults of [calibration_start_year] and [calibration_end_year]. *)
Definition default_calibration_start_year : Z := 1981.
Definition default_calibration_end_year : Z := 2010.

Definition percentage_of_normal (monthly_values : array) (months_scale data_start_year
    calibration_start_year calibration_end_year : Z) : M array :=
  (* do some basic validations to make sure we've been provided with sane
     calibration limits *)
  if data_start_year >? calibration_start_year then
    raise (ValueError Invalid_start_year_arguments)
  else if (calibration_end_year - calibration_start_year + 1) * 12
          >? Z.of_nat (length monthly_values) then
    raise (ValueError Invalid_calibration_period)
  else
    (* get an array containing a sliding sum on the specified months scale *)
    months_scale_sums ← call Sum_to_scale (sum_to_scale monthly_values months_scale);
    (* extract the months over which we'll compute the normal average for each
       calendar month *)
    let calibration_years := calibration_end_year - calibration_start_year + 1 in
    let calibration_start_index := (calibration_start_year - data_start_year) * 12 in
    let calibration_end_index := calibration_start_index + calibration_years * 12 in
    let calibration_period_sums :=
      py_slice months_scale_sums calibration_start_index calibration_end_index in
    (* for each calendar month in the calibration period, get the average of
       the scale months sum for that calendar month *)
    calendar_month_averages ←
      for_each (seq 0 12)
        (fun i averages =>
           setitem averages i (np_nanmean (py_stride calibration_period_sums i 12)))
        (np_full 12 nan);
    (* for each month of the months_scale_sums array find its corresponding
       percentage of the months scale average for its respective calendar month *)
    for_each (seq 0 (length months_scale_sums))
      (fun i percentages_of_normal =>
         divisor ← getitem calendar_month_averages (i mod 12)%nat;
         (* make sure we don't have a zero divisor *)
         if ltb zero divisor then
           dividend ← getitem months_scale_sums i;
           setitem percentages_of_normal i (div dividend divisor)
         else mret percentages_of_normal)
      (np_full (length months_scale_sums) nan).

End Indices.

(** ** The drivers as one family *)

(** A call of one of the four drivers whose result is fitted to a
    distribution. *)
Inductive fitted_call : Type :=
  | Call_spi_gamma (precips : array) (months_scale : Z)
  | Call_spi_pearson (precips : array) (months_scale data_start_year
      calibration_year_initial calibration_year_final : Z)
  | Call_spei_gamma (months_scale : Z) (precips_mm : array)
      (pet_mm temps_celsius : option array) (data_start_year : option Z)
      (latitude_degrees : option float64)
  | Call_spei_pearson (months_scale data_start_year : Z) (precips_mm : array)
      (pet_mm temps_celsius : option array) (latitude_degrees : option float64)
      (calibration_year_initial calibration_year_final : Z).

Definition run_fitted `{Collaborators} (c : fitted_call) : M array :=
  match c with
  | Call_spi_gamma p s => spi_gamma p s
  | Call_spi_pearson p s y ci cf => spi_pearson p s y ci cf
  | Call_spei_gamma s p pet_mm t y lat => spei_gamma s p pet_mm t y lat
  | Call_spei_pearson s y p pet_mm t lat ci cf => spei_pearson s y p pet_mm t lat ci cf
  end.

(** A call of one of the five index drivers. *)
Inductive driver_call : Type :=
  | Call_fitted (c : fitted_call)
  | Call_percentage_of_normal (monthly_values : array) (months_scale data_start_year
      calibration_start_year calibration_end_year : Z).

Definition run_driver `{Collaborators} (c : driver_call) : M array :=
  match c with
  | Call_fitted c => run_fitted c
  | Call_percentage_of_normal v s y cs ce => percentage_of_normal v s y cs ce
  end.

(** The primary input series of a call: the precipitation array, or the
    monthly values of [percentage_of_normal]. *)
Definition primary_input (c : driver_call) : array :=
  match c with
  | Call_fitted (Call_spi_gamma p _) => p
  | Call_fitted (Call_spi_pearson p _ _ _ _) => p
  | Call_fitted (Call_spei_gamma _ p _ _ _ _) => p
  | Call_fitted (Call_spei_pearson _ _ p _ _ _ _ _) => p
  | Call_percentage_of_normal v _ _ _ _ => v
  end.

(** ** A reference instance of the collaborators

    Used to run the drivers on concrete inputs. *)

Module Reference.

(** The sum of a window, from its first element on. *)
Definition window_sum (window : array) : float64 :=
  match window with
  | [] => zero
  | x :: rest => fold_left add rest x
  end.

(** Modelled from the spec: [compute.sum_to_scale], which is not part of
    [indices.py].  The scaled series has the length of the input; entry [i]
    is a missing marker for [i < scale - 1] and the sum of the [scale]
    entries ending at [i] otherwise, a missing entry making the sum missing
    (as the addition of binary64 does).  The spec leaves [scale <= 0]
    undefined; the formula is kept as it is there. *)
Definition sum_to_scale_model (series : array) (scale : Z) : array :=
  imap (fun i _ =>
          if Z.of_nat i <? scale - 1 then nan
          else window_sum (take (Z.to_nat scale) (drop (i + 1 - Z.to_nat scale) series)))
       series.

(** A stand-in for the fitting transforms of [compute]: the values are
    handed through unchanged and the array is filled with missing markers up
    to whole years, as the reshaping to rows of twelve months does.  The
    fitting itself (gamma and Pearson Type III) is not modelled. *)
Definition pad_to_years (values : array) : array :=
  values ++ replicate ((12 - length values mod 12) mod 12) nan.

(** A stand-in for [thornthwaite.potential_evapotranspiration]: no
    evapotranspiration in any month with a temperature. *)
Definition no_evapotranspiration (temps : array) : array :=
  map (fun t => if isnan t then nan else zero) temps.

(** The sum of the elements from left to right. *)
Definition sequential_sum (a : array) : float64 := fold_left add a zero.

Definition collaborators : Collaborators := {|
  sum_to_scale := fun series scale => inr (sum_to_scale_model series scale);
  transform_fitted_gamma := fun values => inr (pad_to_years values);
  transform_fitted_pearson := fun values _ _ _ => inr (pad_to_years values);
  potential_evapotranspiration := fun temps _ _ => inr (no_evapotranspiration temps);
  np_sum := sequential_sum;
  empty_array_is_an_error := true
|}.

(** Small integers as binary64 values, for the examples. *)
Definition f (n : Z) : float64 := of_Z n.

End Reference.

(** ** What the specification asks of the collaborators *)

(** The scaled series has the length of the series; a transformed array has
    at least the length of its argument (at most one year is added by the
    reshaping); the PET series has the length of the temperature series. *)
Class CollaboratorLaws (C : Collaborators) : Prop := {
  sum_to_scale_length : forall series scale scaled,
    sum_to_scale series scale = inr scaled -> length scaled = length series;
  transform_fitted_gamma_length : forall values transformed,
    transform_fitted_gamma values = inr transformed ->
    (length values <= length transformed)%nat;
  transform_fitted_pearson_length : forall values y ci cf transformed,
    transform_fitted_pearson values y ci cf = inr transformed ->
    (length values <= length transformed)%nat;
  potential_evapotranspiration_length : forall temps latitude y pet_values,
    potential_evapotranspiration temps latitude y = inr pet_values ->
    length pet_values = length temps
}.

(** ** Predicates of the specification *)

(** An array given beside the precipitation array has its size. *)
Definition same_size_if_given (precips : array) (a : option array) : Prop :=
  match a with
  | Some a => length a = length precips
  | None => True
  end.

(** A call is valid when the PET array and the temperature array, where
    given, have the size of the precipitation array. *)
Definition valid_input (c : driver_call) : Prop :=
  match c with
  | Call_fitted (Call_spei_gamma _ precips_mm pet_mm temps_celsius _ _) =>
      same_size_if_given precips_mm pet_mm /\ same_size_if_given precips_mm temps_celsius
  | Call_fitted (Call_spei_pearson _ _ precips_mm pet_mm temps_celsius _ _ _) =>
      same_size_if_given precips_mm pet_mm /\ same_size_if_given precips_mm temps_celsius
  | _ => True
  end.

(** A value of a fitted index is valid when it is a missing marker or lies
    in [[-3.09, 3.09]]. *)
Definition within_valid_range (x : float64) : bool :=
  leb _FITTED_INDEX_VALID_MIN x && leb x _FITTED_INDEX_VALID_MAX.

Definition fitted_index_valid (x : float64) : bool :=
  isnan x || within_valid_range x.

(** Every value of the array that is not missing lies in the valid range. *)
Definition clamped (a : array) : Prop :=
  Forall (fun x => isnan x = false -> within_valid_range x = true) a.

(** ** The calendar-month averages of [percentage_of_normal] *)

(** The two expressions of the source that the loops of
    [percentage_of_normal] evaluate: the calibration slice of the scaled sums
    and the average stored for a calendar month. *)
Definition calibration_period_sums (months_scale_sums : array)
    (data_start_year calibration_start_year calibration_end_year : Z) : array :=
  let calibration_years := calibration_end_year - calibration_start_year + 1 in
  let calibration_start_index := (calibration_start_year - data_start_year) * 12 in
  let calibration_end_index := calibration_start_index + calibration_years * 12 in
  py_slice months_scale_sums calibration_start_index calibration_end_index.

Definition calendar_month_average `{Collaborators} (months_scale_sums : array)
    (data_start_year calibration_start_year calibration_end_year : Z) (month : nat)
    : float64 :=
  np_nanmean
    (py_stride
       (calibration_period_sums months_scale_sums data_start_year
          calibration_start_year calibration_end_year) month 12).

(** The entries of [xs] at the positions that [keep] selects, the head of
    [xs] being at position [first]. *)
Fixpoint select_at (keep : nat -> bool) (first : nat) (xs : array) : array :=
  match xs with
  | [] => []
  | x :: xs' =>
      if keep first then x :: select_at keep (S first) xs'
      else select_at keep (S first) xs'
  end.

(** In the words of the specification: entry [j] of a monthly series that
    starts in January of [data_start_year] belongs to calendar month
    [j mod 12] of the year [data_start_year + j / 12]; the calibration-period
    scaled sums of a calendar month are the entries of that month whose year
    lies in the calibration period, both ends included. *)
Definition in_calibration_period (data_start_year calibration_start_year
    calibration_end_year : Z) (j : nat) : bool :=
  let year := data_start_year + Z.of_nat j / 12 in
  (calibration_start_year <=? year) && (year <=? calibration_end_year).

Definition calibration_month_sums (scaled_sums : array) (data_start_year
    calibration_start_year calibration_end_year : Z) (month : nat) : array :=
  select_at
    (fun j => (j mod 12 =? month)%nat
              && in_calibration_period data_start_year calibration_start_year
                   calibration_end_year j)
    0 scaled_sums.

(** The value that the second loop of [percentage_of_normal] leaves at
    index [i]. *)
Definition percentage_at `{Collaborators} (months_scale_sums : array)
    (data_start_year calibration_start_year calibration_end_year : Z) (i : nat)
    : float64 :=
  let divisor :=
    calendar_month_average months_scale_sums data_start_year calibration_start_year
      calibration_end_year (i mod 12) in
  if ltb zero divisor then div (months_scale_sums !!! i) divisor else nan.

(** The clipping of one value by the fitted drivers: the function that
    [np_clip] applies to every element with the two bounds of the module. *)
Definition clip_to_valid_range (x : float64) : float64 :=
  np_minimum (np_maximum x _FITTED_INDEX_VALID_MIN) _FITTED_INDEX_VALID_MAX.

(** * Properties *)

(** ** Binary64 comparisons *)

Lemma ltb_leb (x y : float64) : ltb x y = true -> leb x y = true.
Proof.
  unfold ltb, leb, SFltb, SFleb.
  destruct (SFcompare x y) as [[ | | ] | ]; congruence.
Qed.

(** ** The monad *)

Lemma bind_ret_l {A B : Type} (a : A) (f : A -> M B) : (mret a ≫= f) = f a.
Proof. unfold mbind, mret, M_bind, M_ret. destruct (f a); reflexivity. Qed.

Lemma bind_inr {A B : Type} (m : M A) (f : A -> M B) tr (b : B) :
  (m ≫= f) = (tr, inr b) ->
  exists t1 a t2, m = (t1, inr a) /\ f a = (t2, inr b) /\ tr = t1 ++ t2.
Proof.
  unfold mbind, M_bind. destruct m as [t1 [e | a]]; [discriminate | ].
  destruct (f a) as [t2 r] eqn:Hf. intros [= <- ->]. eauto 6.
Qed.

Lemma call_inr {A : Type} (g : callee) (r : exn + A) tr (a : A) :
  call g r = (tr, inr a) -> r = inr a.
Proof. unfold call. congruence. Qed.

Lemma ret_inr {A : Type} (a b : A) tr : mret a = (tr, inr b) :> M A -> a = b.
Proof. unfold mret, M_ret. congruence. Qed.

Lemma invalid_arguments_inr {A : Type} (msg : message) tr (a : A) :
  invalid_arguments msg = (tr, inr a) -> False.
Proof. discriminate. Qed.

(** Inversion of a computation that returned a value. *)
Ltac inv_ok H :=
  lazymatch type of H with
  | (_ ≫= _) = (_, inr _) =>
      let t1 := fresh "t" in
      let t2 := fresh "t" in
      let a := fresh "a" in
      let H1 := fresh "Hm" in
      let H2 := fresh "Hk" in
      apply bind_inr in H as (t1 & a & t2 & H1 & H2 & ->)
  | call _ _ = (_, inr _) => apply call_inr in H
  | mret _ = (_, inr _) => apply ret_inr in H
  | invalid_arguments _ = (_, inr _) => destruct (invalid_arguments_inr _ _ _ H)
  | raise _ = (_, inr _) => discriminate H
  end.

(** ** Clipping *)

Lemma np_clip_scalar_valid (x : float64) :
  fitted_index_valid
    (np_minimum (np_maximum x _FITTED_INDEX_VALID_MIN) _FITTED_INDEX_VALID_MAX) = true.
Proof.
  unfold fitted_index_valid, within_valid_range, np_minimum, np_maximum.
  destruct (isnan x) eqn:Hnan; cbv iota.
  { destruct x; try discriminate Hnan. reflexivity. }
  change (isnan _FITTED_INDEX_VALID_MIN) with false. cbv iota.
  destruct (ltb _FITTED_INDEX_VALID_MIN x) eqn:Hlo.
  - rewrite Hnan. change (isnan _FITTED_INDEX_VALID_MAX) with false. cbv iota.
    destruct (ltb x _FITTED_INDEX_VALID_MAX) eqn:Hhi.
    + rewrite Hnan, (ltb_leb _ _ Hlo), (ltb_leb _ _ Hhi). reflexivity.
    + reflexivity.
  - reflexivity.
Qed.

Lemma np_clip_valid (a : array) :
  Forall (fun x => fitted_index_valid x = true)
    (np_clip a _FITTED_INDEX_VALID_MIN _FITTED_INDEX_VALID_MAX).
Proof.
  unfold np_clip. apply Forall_forall. intros y Hy.
  apply list_elem_of_In, in_map_iff in Hy as (x & <- & _).
  apply np_clip_scalar_valid.
Qed.

Lemma Forall_py_slice {A : Type} (P : A -> Prop) (xs : list A) (start stop : Z) :
  Forall P xs -> Forall P (py_slice xs start stop).
Proof. intros H. unfold py_slice. now apply Forall_take, Forall_drop. Qed.

Lemma clipped_slice_valid (a : array) (start stop : Z) :
  Forall (fun x => fitted_index_valid x = true)
    (py_slice (np_clip a _FITTED_INDEX_VALID_MIN _FITTED_INDEX_VALID_MAX) start stop).
Proof. apply Forall_py_slice, np_clip_valid. Qed.

Section Fitted.

Context {C : Collaborators}.

Lemma run_fitted_clipped (c : fitted_call) tr out :
  run_fitted c = (tr, inr out) ->
  exists a start stop,
    out = py_slice (np_clip a _FITTED_INDEX_VALID_MIN _FITTED_INDEX_VALID_MAX) start stop.
Proof.
  destruct c; simpl; intros H.
  - unfold spi_gamma in H. repeat inv_ok H. inv_ok Hk. inv_ok Hk0. subst. eauto.
  - unfold spi_pearson in H. inv_ok H. inv_ok Hk. inv_ok Hk0. subst. eauto.
  - unfold spei_gamma in H. inv_ok H. inv_ok Hk. inv_ok Hk0. inv_ok Hk. inv_ok Hk0.
    subst. eauto.
  - unfold spei_pearson in H. inv_ok H. inv_ok Hk. inv_ok Hk0. inv_ok Hk. inv_ok Hk0.
    subst. eauto.
Qed.

End Fitted.

(** ** Lengths *)

Lemma slice_bound_0 (n : nat) : slice_bound n 0 = 0%nat.
Proof. unfold slice_bound. simpl. lia. Qed.

Lemma slice_bound_nonneg (n : nat) (i : Z) :
  0 <= i -> slice_bound n i = Nat.min n (Z.to_nat i).
Proof.
  intros Hi. unfold slice_bound.
  destruct (Z.ltb_spec i 0); lia.
Qed.

Lemma py_slice_prefix_length {A : Type} (xs : list A) (n : nat) :
  (n <= length xs)%nat -> length (py_slice xs 0 (Z.of_nat n)) = n.
Proof.
  intros Hn. unfold py_slice.
  rewrite slice_bound_0, slice_bound_nonneg by lia.
  rewrite length_take, length_drop. lia.
Qed.

Lemma np_clip_length (a : array) (lo hi : float64) : length (np_clip a lo hi) = length a.
Proof. unfold np_clip. apply length_map. Qed.

Lemma np_add_scalar_length (a : array) (c : float64) :
  length (np_add_scalar a c) = length a.
Proof. unfold np_add_scalar. apply length_map. Qed.

Lemma np_subtract_same_length (a b : array) tr d :
  length b = length a ->
  np_subtract a (Some b) = (tr, inr d) -> length d = length a.
Proof.
  intros Hlen. unfold np_subtract.
  rewrite Hlen, Nat.eqb_refl. intros H. inv_ok H. subst d.
  rewrite length_zip_with. lia.
Qed.

Lemma let_pair_id {A B : Type} (m : A * B) : (let '(t, r) := m in (t, r)) = m.
Proof. now destruct m. Qed.

(** The cases of the two tests [!= None] of the validation. *)
Ltac none_tests H :=
  repeat match type of H with
    | context [array_ne_None ?a] =>
        lazymatch a with
        | None => fail
        | Some [] => fail
        | Some [_] => fail
        | Some (_ :: _ :: _) => fail
        | Some ?l => destruct l as [ | ? [ | ? ?]]
        | _ => destruct a as [[ | ? [ | ? ?]] | ]
        end
    end;
  unfold array_ne_None in H;
  try (destruct empty_array_is_an_error);
  cbn [mbind M_bind mret M_ret raise app] in H;
  try discriminate H.

(** The remaining tests of the validation, and its result. *)
Ltac validation_result H :=
  repeat match type of H with
    | context [is_not_None ?x] => destruct x; cbn [is_not_None orb] in H
    | context [match ?x with Some _ => _ | None => _ end] => destruct x
    | context [negb (length ?a =? length ?b)%nat] =>
        destruct (Nat.eqb_spec (length a) (length b)); cbn [negb] in H
    end;
  rewrite ?let_pair_id in H;
  try discriminate H.

Section Lengths.

Context {C : Collaborators} {L : CollaboratorLaws C}.

Lemma pet_length temps latitude y tr pet_values :
  pet temps latitude y = (tr, inr pet_values) -> length pet_values = length temps.
Proof.
  unfold pet. destruct (negb (forallb isnan temps)).
  - destruct (_ && _).
    + intros H. inv_ok H. eauto using potential_evapotranspiration_length.
    + discriminate.
  - intros H. inv_ok H. now subst.
Qed.

Lemma spi_gamma_length precips months_scale tr out :
  spi_gamma precips months_scale = (tr, inr out) -> length out = length precips.
Proof.
  unfold spi_gamma. intros H. inv_ok H. inv_ok Hm. inv_ok Hk. inv_ok Hm0. inv_ok Hk0.
  subst out. apply py_slice_prefix_length. rewrite np_clip_length.
  apply sum_to_scale_length in Hm. apply transform_fitted_gamma_length in Hm0. lia.
Qed.

Lemma spi_pearson_length precips months_scale y ci cf tr out :
  spi_pearson precips months_scale y ci cf = (tr, inr out) ->
  length out = length precips.
Proof.
  unfold spi_pearson. intros H. inv_ok H. inv_ok Hm. inv_ok Hk. inv_ok Hm0. inv_ok Hk0.
  subst out. apply py_slice_prefix_length. rewrite np_clip_length.
  apply sum_to_scale_length in Hm. apply transform_fitted_pearson_length in Hm0. lia.
Qed.

Lemma difference_length (precips_mm : array) (pet_mm : option array) tr difference :
  same_size_if_given precips_mm pet_mm ->
  np_subtract precips_mm pet_mm = (tr, inr difference) ->
  length difference = length precips_mm.
Proof.
  destruct pet_mm as [pet_values | ]; simpl.
  - intros Hsize. now apply np_subtract_same_length.
  - intros _. destruct precips_mm; [ | discriminate]. intros H. inv_ok H. now subst.
Qed.

Lemma spei_gamma_length months_scale precips_mm pet_mm temps y latitude tr out :
  same_size_if_given precips_mm pet_mm ->
  same_size_if_given precips_mm temps ->
  spei_gamma months_scale precips_mm pet_mm temps y latitude = (tr, inr out) ->
  length out = length precips_mm.
Proof.
  intros Hpet Htemps. unfold spei_gamma. intros H. inv_ok H. inv_ok Hk. inv_ok Hk0.
  inv_ok Hm1. inv_ok Hk. inv_ok Hm2. inv_ok Hk0. subst out.
  apply py_slice_prefix_length. rewrite np_clip_length.
  apply sum_to_scale_length in Hm1. apply transform_fitted_gamma_length in Hm2.
  rewrite np_add_scalar_length in Hm1.
  enough (length a0 = length precips_mm) by lia.
  eapply difference_length; [ | eassumption].
  clear Hm0. none_tests Hm; validation_result Hm;
    try (injection Hm as _ <-; first [assumption | exact I]).
  all: inv_ok Hm; inv_ok Hk; subst a; simpl.
  all: match goal with Hp : pet _ _ _ = _ |- _ => apply pet_length in Hp end.
  all: simpl in *; congruence.
Qed.

Lemma spei_pearson_length months_scale y precips_mm pet_mm temps latitude ci cf tr out :
  same_size_if_given precips_mm pet_mm ->
  same_size_if_given precips_mm temps ->
  spei_pearson months_scale y precips_mm pet_mm temps latitude ci cf = (tr, inr out) ->
  length out = length precips_mm.
Proof.
  intros Hpet Htemps. unfold spei_pearson. intros H. inv_ok H. inv_ok Hk. inv_ok Hk0.
  inv_ok Hm1. inv_ok Hk. inv_ok Hm2. inv_ok Hk0. subst out.
  apply py_slice_prefix_length. rewrite np_clip_length.
  apply sum_to_scale_length in Hm1. apply transform_fitted_pearson_length in Hm2.
  rewrite np_add_scalar_length in Hm1.
  enough (length a0 = length precips_mm) by lia.
  eapply difference_length; [ | eassumption].
  clear Hm0. none_tests Hm; validation_result Hm;
    try (injection Hm as _ <-; first [assumption | exact I]).
  all: inv_ok Hm; inv_ok Hk; subst a; simpl.
  all: match goal with Hp : pet _ _ _ = _ |- _ => apply pet_length in Hp end.
  all: simpl in *; congruence.
Qed.

End Lengths.

(** ** Slices and strides *)

Lemma select_at_ext (keep keep' : nat -> bool) (first : nat) (xs : array) :
  (forall j, (first <= j < first + length xs)%nat -> keep j = keep' j) ->
  select_at keep first xs = select_at keep' first xs.
Proof.
  revert first. induction xs as [ | x xs IH]; intros first Hext; [reflexivity | ].
  simpl. rewrite <- (Hext first) by (simpl; lia).
  rewrite (IH (S first)) by (intros j Hj; apply Hext; simpl; lia).
  reflexivity.
Qed.

Lemma select_at_none (keep : nat -> bool) (first : nat) (xs : array) :
  (forall j, (first <= j < first + length xs)%nat -> keep j = false) ->
  select_at keep first xs = [].
Proof.
  revert first. induction xs as [ | x xs IH]; intros first Hnone; [reflexivity | ].
  simpl. rewrite (Hnone first) by (simpl; lia).
  apply IH. intros j Hj. apply Hnone. simpl. lia.
Qed.

Lemma select_at_shift (keep : nat -> bool) (first : nat) (xs : array) :
  select_at keep (S first) xs = select_at (fun j => keep (S j)) first xs.
Proof.
  revert first. induction xs as [ | x xs IH]; intros first; [reflexivity | ].
  simpl. now rewrite IH.
Qed.

Lemma select_at_take (keep : nat -> bool) (first n : nat) (xs : array) :
  select_at keep first (take n xs)
  = select_at (fun j => keep j && (j <? first + n)%nat) first xs.
Proof.
  revert first n. induction xs as [ | x xs IH]; intros first n.
  - now rewrite take_nil.
  - destruct n as [ | n]; simpl.
    + replace (first <? first + 0)%nat with false by (symmetry; apply Nat.ltb_ge; lia).
      rewrite andb_false_r. symmetry. apply select_at_none.
      intros j Hj. replace (j <? first + 0)%nat with false
        by (symmetry; apply Nat.ltb_ge; lia).
      apply andb_false_r.
    + replace (first <? first + S n)%nat with true by (symmetry; apply Nat.ltb_lt; lia).
      rewrite andb_true_r, IH.
      replace (S first + n)%nat with (first + S n)%nat by lia.
      reflexivity.
Qed.

Lemma select_at_drop (keep : nat -> bool) (first n : nat) (xs : array) :
  select_at keep first (drop n xs)
  = select_at (fun j => (first + n <=? j)%nat && keep (j - n)%nat) first xs.
Proof.
  revert first xs. induction n as [ | n IH]; intros first xs.
  - rewrite drop_0. apply select_at_ext. intros j Hj.
    replace (first + 0 <=? j)%nat with true by (symmetry; apply Nat.leb_le; lia).
    now rewrite Nat.sub_0_r.
  - destruct xs as [ | x xs]; [reflexivity | ]. simpl.
    replace (first + S n <=? first)%nat with false by (symmetry; apply Nat.leb_gt; lia).
    simpl. rewrite IH, select_at_shift.
    apply select_at_ext. intros j Hj.
    replace (first + S n <=? S j)%nat with (first + n <=? j)%nat; [reflexivity | ].
    destruct (Nat.leb_spec (first + n) j); symmetry;
      [apply Nat.leb_le | apply Nat.leb_gt]; lia.
Qed.

Lemma py_stride_aux_select (step skip first : nat) (xs : array) :
  py_stride_aux (S step) skip xs
  = select_at (fun j => (first + skip <=? j)%nat
                        && ((j - (first + skip)) mod S step =? 0)%nat) first xs.
Proof.
  revert skip first. induction xs as [ | x xs IH]; intros skip first; [reflexivity | ].
  cbn [py_stride_aux select_at]. destruct skip as [ | skip].
  - replace (first + 0 <=? first)%nat with true by (symmetry; apply Nat.leb_le; lia).
    replace (first - (first + 0))%nat with 0%nat by lia.
    rewrite Nat.Div0.mod_0_l. cbn [andb Nat.eqb]. f_equal.
    rewrite (IH (S step - 1)%nat (S first)).
    apply select_at_ext. intros j Hj.
    replace (first + 0 <=? j)%nat with true by (symmetry; apply Nat.leb_le; lia).
    cbn [andb].
    destruct (Nat.leb_spec (S first + (S step - 1)) j) as [Hle | Hlt]; cbn [andb].
    + f_equal.
      replace (j - (first + 0))%nat
        with ((j - (S first + (S step - 1))) + 1 * S step)%nat by lia.
      now rewrite Nat.Div0.mod_add.
    + symmetry. apply Nat.eqb_neq.
      rewrite Nat.mod_small by lia. lia.
  - replace (first + S skip <=? first)%nat with false
      by (symmetry; apply Nat.leb_gt; lia).
    cbn [andb]. rewrite (IH skip (S first)).
    apply select_at_ext. intros j Hj.
    replace (S first + skip)%nat with (first + S skip)%nat by lia. reflexivity.
Qed.

(** The slice and the stride of the source select the calibration-period
    sums of a calendar month, in the words of the specification. *)
Lemma stride_of_calibration_slice (sums : array) (dsy csy cey : Z) (month : nat) :
  dsy <= csy -> csy <= cey + 1 -> (month < 12)%nat ->
  py_stride (calibration_period_sums sums dsy csy cey) month 12
  = calibration_month_sums sums dsy csy cey month.
Proof.
  intros Hstart Hspan Hmonth.
  unfold calibration_period_sums, calibration_month_sums, py_stride, py_slice.
  rewrite !slice_bound_nonneg by lia.
  rewrite (py_stride_aux_select 11 month 0), select_at_take, select_at_drop.
  apply select_at_ext. intros j Hj.
  unfold in_calibration_period.
  apply eq_true_iff_eq.
  rewrite !andb_true_iff, !Nat.leb_le, !Nat.ltb_lt, !Nat.eqb_eq, !Z.leb_le.
  split; intros; zify; Z.to_euclidean_division_equations; lia.
Qed.

(** ** Loops that fill an array *)

Lemma bind_call_inr {A B : Type} (g : callee) (a : A) (f : A -> M B) :
  (call g (inr a) ≫= f) = (Called g :: (f a).1, (f a).2).
Proof. unfold mbind, M_bind, call. destruct (f a); reflexivity. Qed.

Lemma setitem_middle (pre post : array) (d v : float64) (i : nat) :
  length pre = i -> setitem (pre ++ d :: post) i v = mret (pre ++ v :: post).
Proof.
  intros <-. unfold setitem.
  replace (length pre <? length (pre ++ d :: post))%nat with true
    by (symmetry; apply Nat.ltb_lt; rewrite length_app; simpl; lia).
  do 2 f_equal. clear. induction pre as [ | x pre IH]; simpl; [reflexivity | ].
  f_equal. exact IH.
Qed.

Lemma getitem_lookup (a : array) (i : nat) (x : float64) :
  a !! i = Some x -> getitem a i = mret x.
Proof. unfold getitem. now intros ->. Qed.

(** A loop over [range(n)] whose pass [i] replaces the initial value [d] at
    index [i] by [h i] leaves the array of the [h i]. *)
Lemma for_each_fill (n : nat) (body : nat -> array -> M array) (h : nat -> float64)
    (d : float64) :
  (forall i pre post, (i < n)%nat -> length pre = i ->
     body i (pre ++ d :: post) = mret (pre ++ h i :: post)) ->
  for_each (seq 0 n) body (replicate n d) = mret (h <$> seq 0 n).
Proof.
  intros Hbody.
  enough (Hgen : forall m k, (k + m = n)%nat ->
            for_each (seq k m) body ((h <$> seq 0 k) ++ replicate m d)
            = mret (h <$> seq 0 n)).
  { apply (Hgen n 0%nat). lia. }
  induction m as [ | m IH]; intros k Hk.
  - simpl. rewrite app_nil_r. replace k with n by lia. reflexivity.
  - cbn [seq for_each replicate].
    rewrite Hbody by (try rewrite length_fmap, length_seq; lia).
    rewrite bind_ret_l.
    specialize (IH (S k) ltac:(lia)).
    rewrite seq_S, fmap_app in IH. simpl in IH.
    rewrite <- app_assoc in IH. exact IH.
Qed.

Section PercentageOfNormal.

Context {C : Collaborators}.

(** Past its validation, and when the scaled sums are returned,
    [percentage_of_normal] returns, and its result is given index by index by
    [percentage_at]. *)
Lemma percentage_of_normal_returns (monthly_values : array)
    (months_scale dsy csy cey : Z) (sums : array) :
  dsy <= csy ->
  (cey - csy + 1) * 12 <= Z.of_nat (length monthly_values) ->
  sum_to_scale monthly_values months_scale = inr sums ->
  percentage_of_normal monthly_values months_scale dsy csy cey
  = ([Called Sum_to_scale],
     inr (percentage_at sums dsy csy cey <$> seq 0 (length sums))).
Proof.
  intros Hstart Hspan Hsums. unfold percentage_of_normal.
  destruct (Z.gtb_spec dsy csy) as [Hgt | _]; [lia | ].
  destruct (Z.gtb_spec ((cey - csy + 1) * 12) (Z.of_nat (length monthly_values)))
    as [Hgt | _]; [lia | ].
  rewrite Hsums, bind_call_inr.
  fold (calibration_period_sums sums dsy csy cey).
  rewrite (for_each_fill 12 _
             (fun i => np_nanmean (py_stride (calibration_period_sums sums dsy csy cey) i 12))
             nan)
    by (intros; now apply setitem_middle).
  rewrite bind_ret_l.
  rewrite (for_each_fill (length sums) _ (percentage_at sums dsy csy cey) nan).
  - reflexivity.
  - intros i pre post Hi Hpre.
    assert (Hmod : (i mod 12 < 12)%nat) by (apply Nat.mod_upper_bound; lia).
    erewrite (getitem_lookup (_ <$> _))
      by (rewrite list_lookup_fmap, lookup_seq_lt by exact Hmod; reflexivity).
    rewrite bind_ret_l. unfold percentage_at, calendar_month_average. simpl.
    destruct (ltb zero _); [ | reflexivity].
    destruct (lookup_lt_is_Some_2 sums i Hi) as [s Hs].
    rewrite (getitem_lookup _ _ _ Hs), bind_ret_l.
    rewrite (list_lookup_total_correct _ _ _ Hs).
    now apply setitem_middle.
Qed.

End PercentageOfNormal.

(** ** The reference collaborators meet the specification *)

Lemma reference_laws : CollaboratorLaws Reference.collaborators.
Proof.
  split; simpl.
  - intros series scale scaled [= <-]. unfold Reference.sum_to_scale_model.
    apply length_imap.
  - intros values transformed [= <-]. unfold Reference.pad_to_years.
    rewrite length_app. lia.
  - intros values _ _ _ transformed [= <-]. unfold Reference.pad_to_years.
    rewrite length_app. lia.
  - intros temps _ _ pet_values [= <-]. unfold Reference.no_evapotranspiration.
    apply length_map.
Qed.

(** The example of the specification for the scaler: the series 1, 2, 3, 4,
    5 at scale 3 gives NaN, NaN, 6, 9, 12. *)
Example sum_to_scale_model_example :
  Reference.sum_to_scale_model (Reference.f <$> [1; 2; 3; 4; 5]) 3
  = [nan; nan; Reference.f 6; Reference.f 9; Reference.f 12].
Proof. vm_compute. reflexivity. Qed.

(** * The claims of the specification *)

(** ** Clipping and lengths of the fitted indices *)

(** C1.  Every value returned by [spi_gamma], [spi_pearson], [spei_gamma]
    and [spei_pearson] is a missing marker (NaN) or lies in the interval
    [[-3.09, 3.09]]. *)
Theorem fitted_index_values_valid `{Collaborators} (c : fitted_call)
    (tr : list event) (out : array) :
  run_fitted c = (tr, inr out) ->
  Forall (fun x => isnan x = true
                   \/ (leb _FITTED_INDEX_VALID_MIN x = true
                       /\ leb x _FITTED_INDEX_VALID_MAX = true)) out.
Proof.
  intros Hrun. apply run_fitted_clipped in Hrun as (a & start & stop & ->).
  eapply Forall_impl; [apply clipped_slice_valid | ].
  intros x Hx. unfold fitted_index_valid, within_valid_range in Hx.
  apply orb_true_iff in Hx as [Hx | Hx]; [now left | right].
  now apply andb_true_iff in Hx.
Qed.

Lemma fitted_index_values_valid_witness :
  let c := Call_spi_gamma (Reference.f <$> [1; 2; 3; 4; 5]) 3 in
  let out := [nan; nan; lit_3_09; lit_3_09; lit_3_09] in
  @run_fitted Reference.collaborators c
  = ([Called Sum_to_scale; Called Transform_fitted_gamma], inr out)
  /\ Forall (fun x => isnan x = true
                      \/ (leb _FITTED_INDEX_VALID_MIN x = true
                          /\ leb x _FITTED_INDEX_VALID_MAX = true)) out.
Proof.
  intros c out.
  assert (Hrun : @run_fitted Reference.collaborators c
                 = ([Called Sum_to_scale; Called Transform_fitted_gamma], inr out))
    by (vm_compute; reflexivity).
  split; [exact Hrun | ].
  exact (@fitted_index_values_valid Reference.collaborators c _ out Hrun).
Defined.



(** ** Argument combinations of [spei_gamma] *)

(** C3.  With both a PET array and a temperature array, neither of them
    empty, [spei_gamma] raises a [ValueError] before any function of
    [compute] is entered: the logged error of incompatible arguments when
    both arrays have one element, the error of numpy on the truth value of
    [a != None] when one of them has more.  With neither array no check of
    the validation applies and nothing is logged: for a precipitation array
    that is not empty the subtraction [precips_mm - pet_mm] raises the
    [TypeError] of numpy, not a [ValueError], and for an empty one the
    computation goes on into [compute]. *)
Theorem spei_gamma_both_or_neither `{Collaborators} (months_scale : Z)
    (precips_mm : array) (data_start_year : option Z)
    (latitude_degrees : option float64) :
  (forall pet_mm temps_celsius,
     pet_mm <> [] -> temps_celsius <> [] ->
     spei_gamma months_scale precips_mm (Some pet_mm) (Some temps_celsius)
       data_start_year latitude_degrees
     = match temps_celsius, pet_mm with
       | [_], [_] =>
           ([Log_error Incompatible_arguments],
            inl (ValueError Incompatible_arguments))
       | _, _ => ([], inl (ValueError Truth_value_ambiguous))
       end)
  /\ (precips_mm <> [] ->
      spei_gamma months_scale precips_mm None None data_start_year latitude_degrees
      = ([], inl (TypeError Unsupported_operand_types)))
  /\ (precips_mm = [] ->
      exists tr r,
        spei_gamma months_scale precips_mm None None data_start_year latitude_degrees
        = (Called Sum_to_scale :: tr, r)).
Proof.
  split; [ | split].
  - intros [ | p [ | p' pet_mm]] [ | t [ | t' temps]] Hpet Htemps;
      try contradiction; reflexivity.
  - destruct precips_mm; [contradiction | reflexivity].
  - intros ->. unfold spei_gamma, array_ne_None, np_subtract.
    rewrite !bind_ret_l. cbv zeta.
    destruct (sum_to_scale _ _) as [e | scaled].
    + eexists _, _. reflexivity.
    + rewrite bind_call_inr. eexists _, _. reflexivity.
Qed.

Lemma spei_gamma_both_or_neither_witness :
  let precips := Reference.f <$> [70; 80; 90] in
  @spei_gamma Reference.collaborators 3 precips
    (Some (Reference.f <$> [10; 20; 30])) (Some (Reference.f <$> [5; 6; 7])) None None
  = ([], inl (ValueError Truth_value_ambiguous))
  /\ @spei_gamma Reference.collaborators 3 precips (Some [Reference.f 10])
       (Some [Reference.f 5]) None None
     = ([Log_error Incompatible_arguments], inl (ValueError Incompatible_arguments))
  /\ @spei_gamma Reference.collaborators 3 precips None None None None
     = ([], inl (TypeError Unsupported_operand_types))
  /\ exists tr r,
       @spei_gamma Reference.collaborators 3 [] None None None None
       = (Called Sum_to_scale :: tr, r).
Proof.
  intros precips.
  destruct (@spei_gamma_both_or_neither Reference.collaborators 3 precips None None)
    as (Hboth & Hneither & _).
  destruct (@spei_gamma_both_or_neither Reference.collaborators 3 [] None None)
    as (_ & _ & Hempty).
  split; [ | split; [ | split]].
  - refine (Hboth (Reference.f <$> [10; 20; 30]) (Reference.f <$> [5; 6; 7]) _ _);
      discriminate.
  - refine (Hboth [Reference.f 10] [Reference.f 5] _ _); discriminate.
  - apply Hneither. discriminate.
  - apply Hempty. reflexivity.
Defined.

(** C4.  With a PET array that is not empty and a latitude or a data start
    year (one or both not [None]), [spei_gamma] raises a [ValueError] and no
    function of [compute] or [thornthwaite] is entered.  For a PET array of
    one element it is the logged error of the validation: that of extraneous
    arguments without a temperature array, that of incompatible arguments
    with one of one element.  For a PET array of more elements it is the
    error of numpy on the truth value of [pet_mm != None], not logged. *)
Theorem spei_gamma_extraneous_arguments `{Collaborators} (months_scale : Z)
    (precips_mm pet_mm : array) (temps_celsius : option array)
    (data_start_year : option Z) (latitude_degrees : option float64) :
  pet_mm <> [] ->
  latitude_degrees <> None \/ data_start_year <> None ->
  let result :=
    spei_gamma months_scale precips_mm (Some pet_mm) temps_celsius data_start_year
      latitude_degrees in
  let logged message := ([Log_error message], inl (ValueError message)) in
  ((exists message, result = logged message)
   \/ result = ([], inl (ValueError Truth_value_ambiguous)))
  /\ (forall p, pet_mm = [p] -> temps_celsius = None ->
      result = logged Extraneous_arguments)
  /\ (forall p t, pet_mm = [p] -> temps_celsius = Some [t] ->
      result = logged Incompatible_arguments)
  /\ ((1 < length pet_mm)%nat -> temps_celsius = None ->
      result = ([], inl (ValueError Truth_value_ambiguous))).
Proof.
  intros Hpet Hextra result logged. subst result logged.
  assert (Hscalar : is_not_None latitude_degrees || is_not_None data_start_year = true).
  { destruct latitude_degrees, data_start_year; try reflexivity.
    destruct Hextra; congruence. }
  split; [ | split; [ | split]].
  - unfold spei_gamma, array_ne_None.
    destruct temps_celsius as [[ | t [ | t' temps]] | ],
      pet_mm as [ | p [ | p' pet_mm]]; try contradiction;
      destruct empty_array_is_an_error; cbn [mbind M_bind mret M_ret raise app];
      rewrite ?Hscalar; eauto.
  - intros p -> ->. unfold spei_gamma, array_ne_None.
    cbn [mbind M_bind mret M_ret raise app]. now rewrite Hscalar.
  - intros p t -> ->. reflexivity.
  - intros Hlen ->. destruct pet_mm as [ | p [ | p' pet_mm]]; simpl in Hlen; try lia.
    reflexivity.
Qed.

Lemma spei_gamma_extraneous_arguments_witness :
  let precips := Reference.f <$> [70; 80; 90] in
  let logged message := ([Log_error message], inl (ValueError message)) in
  @spei_gamma Reference.collaborators 3 precips (Some (Reference.f <$> [10; 20; 30]))
    None (Some 1895) None
  = ([], inl (ValueError Truth_value_ambiguous))
  /\ @spei_gamma Reference.collaborators 3 precips (Some [Reference.f 10]) None
       (Some 1895) None
     = logged Extraneous_arguments.
Proof.
  intros precips logged.
  destruct (@spei_gamma_extraneous_arguments Reference.collaborators 3 precips
              (Reference.f <$> [10; 20; 30]) None (Some 1895) None)
    as (_ & _ & _ & Hlong); [discriminate | right; discriminate | ].
  destruct (@spei_gamma_extraneous_arguments Reference.collaborators 3 precips
              [Reference.f 10] None (Some 1895) None)
    as (_ & Hone & _); [discriminate | right; discriminate | ].
  split.
  - apply Hlong; [simpl; lia | reflexivity].
  - apply (Hone (Reference.f 10)); reflexivity.
Defined.

(** ** The calibration window of [percentage_of_normal] *)

(** C6.  [percentage_of_normal] raises a [ValueError] before anything is
    computed when the calibration start year is before the data start year,
    or when the months of the calibration years outnumber the monthly
    values; otherwise the validation passes and the computation starts with
    the scaled sums. *)
Theorem percentage_of_normal_validation `{Collaborators} (monthly_values : array)
    (months_scale data_start_year calibration_start_year calibration_end_year : Z) :
  let result :=
    percentage_of_normal monthly_values months_scale data_start_year
      calibration_start_year calibration_end_year in
  let calibration_months := (calibration_end_year - calibration_start_year + 1) * 12 in
  (calibration_start_year < data_start_year ->
   result = ([], inl (ValueError Invalid_start_year_arguments)))
  /\ (data_start_year <= calibration_start_year ->
      Z.of_nat (length monthly_values) < calibration_months ->
      result = ([], inl (ValueError Invalid_calibration_period)))
  /\ (data_start_year <= calibration_start_year ->
      calibration_months <= Z.of_nat (length monthly_values) ->
      exists tr r, result = (Called Sum_to_scale :: tr, r)).
Proof.
  intros result calibration_months. subst result calibration_months.
  unfold percentage_of_normal.
  destruct (Z.gtb_spec data_start_year calibration_start_year) as [Hgt | Hle].
  - split; [ | split]; intros; [reflexivity | lia | lia].
  - destruct (Z.gtb_spec ((calibration_end_year - calibration_start_year + 1) * 12)
                (Z.of_nat (length monthly_values))) as [Hgt | Hfit].
    + split; [ | split]; intros; [lia | reflexivity | lia].
    + split; [ | split]; intros; [lia | lia | ].
      destruct (sum_to_scale monthly_values months_scale) as [e | sums].
      * eexists _, _. reflexivity.
      * rewrite bind_call_inr. eexists _, _. reflexivity.
Qed.

Lemma percentage_of_normal_validation_witness :
  let values := Reference.f <$> [1; 2; 3; 4; 5; 6; 7; 8; 9; 10; 11; 12] in
  @percentage_of_normal Reference.collaborators values 1 1990
    default_calibration_start_year default_calibration_end_year
  = ([], inl (ValueError Invalid_start_year_arguments))
  /\ @percentage_of_normal Reference.collaborators values 1 1981
       default_calibration_start_year default_calibration_end_year
     = ([], inl (ValueError Invalid_calibration_period))
  /\ exists tr r,
       @percentage_of_normal Reference.collaborators values 1 1981 1981 1981
       = (Called Sum_to_scale :: tr, r).
Proof.
  intros values. unfold default_calibration_start_year, default_calibration_end_year.
  split; [ | split].
  - apply (@percentage_of_normal_validation Reference.collaborators values 1 1990
             1981 2010). lia.
  - apply (@percentage_of_normal_validation Reference.collaborators values 1 1981
             1981 2010); simpl; lia.
  - apply (@percentage_of_normal_validation Reference.collaborators values 1 1981
             1981 1981); simpl; lia.
Defined.

(** ** Latitude validation of [pet] *)

Lemma forallb_isnan_false (temps : array) :
  Exists (fun t => isnan t = false) temps -> forallb isnan temps = false.
Proof.
  induction 1 as [t temps Ht | t temps _ IH]; simpl.
  - now rewrite Ht.
  - rewrite IH. apply andb_false_r.
Qed.

Lemma forallb_isnan_true (temps : array) :
  Forall (fun t => isnan t = true) temps -> forallb isnan temps = true.
Proof.
  induction 1 as [ | t temps Ht _ IH]; simpl; [reflexivity | ].
  now rewrite Ht, IH.
Qed.

(** C7.  For a temperature series that is not entirely missing, [pet] logs
    and raises a [ValueError] when the latitude is missing (NaN) or is not
    strictly between -90 and 90. *)
Theorem pet_rejects_invalid_latitude `{Collaborators}
    (temperature_monthly_celsius : array) (latitude_degrees : float64)
    (data_start_year : Z) :
  Exists (fun t => isnan t = false) temperature_monthly_celsius ->
  isnan latitude_degrees = true
  \/ ~ (ltb (SFopp lit_90) latitude_degrees = true
        /\ ltb latitude_degrees lit_90 = true) ->
  pet temperature_monthly_celsius latitude_degrees data_start_year
  = ([Log_error (Invalid_latitude_value latitude_degrees)],
     inl (ValueError (Invalid_latitude_value latitude_degrees))).
Proof.
  intros Htemps Hlat. unfold pet.
  rewrite (forallb_isnan_false _ Htemps). simpl negb. cbv iota.
  destruct (isnan latitude_degrees) eqn:Hnan; [reflexivity | ].
  destruct Hlat as [Hlat | Hlat]; [discriminate | ].
  destruct (ltb latitude_degrees lit_90) eqn:Hhi; [ | reflexivity].
  destruct (ltb (SFopp lit_90) latitude_degrees) eqn:Hlo; [ | reflexivity].
  destruct Hlat. split; reflexivity.
Qed.

Lemma pet_rejects_invalid_latitude_witness :
  let temps := [Reference.f 20; nan; Reference.f 25] in
  let latitude := Reference.f 95 in
  @pet Reference.collaborators temps latitude 2000
  = ([Log_error (Invalid_latitude_value latitude)],
     inl (ValueError (Invalid_latitude_value latitude))).
Proof.
  intros temps latitude.
  apply (@pet_rejects_invalid_latitude Reference.collaborators temps latitude 2000).
  - apply Exists_cons_hd. reflexivity.
  - right. intros [_ Hhi]. vm_compute in Hhi. discriminate Hhi.
Defined.

(** C8.  Whatever the latitude, when every temperature is missing (NaN)
    [pet] returns the temperature series itself: nothing is logged, nothing
    is raised and [thornthwaite] is not entered. *)
Theorem pet_all_missing_unchanged `{Collaborators}
    (temperature_monthly_celsius : array) (latitude_degrees : float64)
    (data_start_year : Z) :
  Forall (fun t => isnan t = true) temperature_monthly_celsius ->
  pet temperature_monthly_celsius latitude_degrees data_start_year
  = ([], inr temperature_monthly_celsius).
Proof.
  intros Htemps. unfold pet. now rewrite (forallb_isnan_true _ Htemps).
Qed.

Lemma pet_all_missing_unchanged_witness :
  @pet Reference.collaborators [nan; nan; nan] (Reference.f 95) 2000
  = ([], inr [nan; nan; nan]).
Proof.
  apply (@pet_all_missing_unchanged Reference.collaborators [nan; nan; nan]
           (Reference.f 95) 2000).
  repeat constructor.
Defined.

(** ** The range of the values of the drivers *)

(** C9, as stated, fails: [percentage_of_normal] returns ratios that are
    not clamped.  Twelve months of 1 followed by twelve months of 10, with
    the first year as calibration period, give 10 for every month of the
    second year. *)
Lemma percentage_of_normal_not_clamped :
  exists tr out,
    @run_driver Reference.collaborators
      (Call_percentage_of_normal
         (Reference.f <$> [1; 1; 1; 1; 1; 1; 1; 1; 1; 1; 1; 1;
                           10; 10; 10; 10; 10; 10; 10; 10; 10; 10; 10; 10])
         1 2000 2000 2000)
    = (tr, inr out)
    /\ ~ clamped out.
Proof.
  eexists _, _. split.
  - vm_compute. reflexivity.
  - intros Hclamped.
    apply (Forall_lookup_1 _ _ 12%nat (Reference.f 10)) in Hclamped;
      [ | vm_compute; reflexivity].
    specialize (Hclamped eq_refl). vm_compute in Hclamped. discriminate Hclamped.
Qed.

(** C9, amended.  Every value returned by [spi_gamma], [spi_pearson],
    [spei_gamma] and [spei_pearson] that is not missing lies within the
    clamped range [[-3.09, 3.09]]. *)
Theorem fitted_index_values_clamped `{Collaborators} (c : fitted_call)
    (tr : list event) (out : array) :
  run_fitted c = (tr, inr out) -> clamped out.
Proof.
  intros Hrun. apply run_fitted_clipped in Hrun as (a & start & stop & ->).
  unfold clamped. eapply Forall_impl; [apply clipped_slice_valid | ].
  intros x Hx Hnan. unfold fitted_index_valid in Hx.
  now rewrite Hnan in Hx.
Qed.

Lemma fitted_index_values_clamped_witness :
  let c := Call_spi_pearson (Reference.f <$> [1; 2; 3; 4; 5]) 2 1981 1981 2010 in
  let out := [nan; Reference.f 3; lit_3_09; lit_3_09; lit_3_09] in
  @run_fitted Reference.collaborators c
  = ([Called Sum_to_scale; Called Transform_fitted_pearson], inr out)
  /\ clamped out.
Proof.
  intros c out.
  assert (Hrun : @run_fitted Reference.collaborators c
                 = ([Called Sum_to_scale; Called Transform_fitted_pearson], inr out))
    by (vm_compute; reflexivity).
  split; [exact Hrun | ].
  exact (@fitted_index_values_clamped Reference.collaborators c _ out Hrun).
Defined.

(** ** The values of [percentage_of_normal] *)

Lemma leb_zero_not_positive (x : float64) : leb x zero = true -> ltb zero x = false.
Proof. destruct x as [s | s | | s m e]; try destruct s; cbv; congruence. Qed.

Lemma lookup_percentages `{Collaborators} (sums : array) (dsy csy cey : Z) (i : nat)
    (s : float64) :
  sums !! i = Some s ->
  (percentage_at sums dsy csy cey <$> seq 0 (length sums)) !! i
  = Some (let divisor := calendar_month_average sums dsy csy cey (i mod 12) in
          if ltb zero divisor then div s divisor else nan).
Proof.
  intros Hs. rewrite list_lookup_fmap, lookup_seq_lt by (eapply lookup_lt_Some; eauto).
  simpl. unfold percentage_at. now rewrite (list_lookup_total_correct _ _ _ Hs).
Qed.

(** C5.  For a calibration window that starts no earlier than the data,
    ends no earlier than it starts and spans no more months than there are
    values, and scaled sums [sums] returned by the scaler: the output at
    index [i] is the scaled sum at [i] divided by the average of calendar
    month [i mod 12], that average being [np.nanmean] of the scaled sums of
    that calendar month in the calibration years; it is a missing marker
    when the average is not greater than zero, in particular when it is zero
    or negative. *)
Theorem percentage_of_normal_ratio `{Collaborators} (monthly_values : array)
    (months_scale data_start_year calibration_start_year calibration_end_year : Z)
    (sums : array) :
  data_start_year <= calibration_start_year ->
  calibration_start_year <= calibration_end_year ->
  (calibration_end_year - calibration_start_year + 1) * 12
    <= Z.of_nat (length monthly_values) ->
  sum_to_scale monthly_values months_scale = inr sums ->
  exists out,
    percentage_of_normal monthly_values months_scale data_start_year
      calibration_start_year calibration_end_year
    = ([Called Sum_to_scale], inr out)
    /\ length out = length sums
    /\ forall i s, sums !! i = Some s ->
         let average :=
           np_nanmean
             (calibration_month_sums sums data_start_year calibration_start_year
                calibration_end_year (i mod 12)) in
         (ltb zero average = true -> out !! i = Some (div s average))
         /\ (ltb zero average = false -> out !! i = Some nan)
         /\ (leb average zero = true -> out !! i = Some nan).
Proof.
  intros Hstart Hwindow Hspan Hsums.
  exists (percentage_at sums data_start_year calibration_start_year
            calibration_end_year <$> seq 0 (length sums)).
  split; [ | split].
  - apply percentage_of_normal_returns; assumption.
  - now rewrite length_fmap, length_seq.
  - intros i s Hs average.
    rewrite (lookup_percentages _ _ _ _ _ _ Hs). unfold calendar_month_average.
    rewrite stride_of_calibration_slice
      by (try apply Nat.mod_upper_bound; lia).
    fold average. cbv zeta.
    split; [ | split].
    + now intros ->.
    + now intros ->.
    + intros Hle. now rewrite (leb_zero_not_positive _ Hle).
Qed.

Lemma percentage_of_normal_ratio_witness :
  let values :=
    Reference.f <$> [2; 2; 2; 2; 2; 2; 2; 2; 2; 2; 2; 2;
                     6; 6; 6; 6; 6; 6; 6; 6; 6; 6; 6; 6] in
  exists out,
    @percentage_of_normal Reference.collaborators values 1 2000 2000 2001
    = ([Called Sum_to_scale], inr out)
    /\ length out = length values
    /\ forall i s, values !! i = Some s ->
         let average :=
           @np_nanmean Reference.collaborators
             (calibration_month_sums values 2000 2000 2001 (i mod 12)) in
         (ltb zero average = true -> out !! i = Some (div s average))
         /\ (ltb zero average = false -> out !! i = Some nan)
         /\ (leb average zero = true -> out !! i = Some nan).
Proof.
  intros values.
  apply (@percentage_of_normal_ratio Reference.collaborators values 1 2000 2000 2001
           values).
  - lia.
  - lia.
  - simpl. lia.
  - vm_compute. reflexivity.
Defined.

(** The example of the specification: over two years with a repeating
    pattern (2 in every month of the first year, 6 in every month of the
    second) and both years as calibration period, every average is 4 and the
    output is 1/2 in the first year and 3/2 in the second. *)
Example percentage_of_normal_two_years :
  @percentage_of_normal Reference.collaborators
    (Reference.f <$> [2; 2; 2; 2; 2; 2; 2; 2; 2; 2; 2; 2;
                      6; 6; 6; 6; 6; 6; 6; 6; 6; 6; 6; 6])
    1 2000 2000 2001
  = ([Called Sum_to_scale],
     inr (replicate 12 (div (Reference.f 1) (Reference.f 2))
          ++ replicate 12 (div (Reference.f 3) (Reference.f 2)))).
Proof. vm_compute. reflexivity. Qed.

(** C10.  Past the validation of the calibration window, and the scaler
    having returned the scaled sums, [percentage_of_normal] raises nothing
    whatever the values are; where the average of a calendar month is itself
    missing (NaN), the output of every index of that calendar month is a
    missing marker. *)
Theorem percentage_of_normal_missing_average `{Collaborators} (monthly_values : array)
    (months_scale data_start_year calibration_start_year calibration_end_year : Z)
    (sums : array) :
  data_start_year <= calibration_start_year ->
  (calibration_end_year - calibration_start_year + 1) * 12
    <= Z.of_nat (length monthly_values) ->
  sum_to_scale monthly_values months_scale = inr sums ->
  exists out,
    percentage_of_normal monthly_values months_scale data_start_year
      calibration_start_year calibration_end_year
    = ([Called Sum_to_scale], inr out)
    /\ length out = length sums
    /\ forall i, (i < length sums)%nat ->
         isnan (calendar_month_average sums data_start_year calibration_start_year
                  calibration_end_year (i mod 12)) = true ->
         out !! i = Some nan.
Proof.
  intros Hstart Hspan Hsums.
  exists (percentage_at sums data_start_year calibration_start_year
            calibration_end_year <$> seq 0 (length sums)).
  split; [ | split].
  - apply percentage_of_normal_returns; assumption.
  - now rewrite length_fmap, length_seq.
  - intros i Hi Hnan.
    destruct (lookup_lt_is_Some_2 sums i Hi) as [s Hs].
    rewrite (lookup_percentages _ _ _ _ _ _ Hs). cbv zeta.
    destruct (calendar_month_average _ _ _ _ _); try discriminate Hnan.
    reflexivity.
Qed.

Lemma percentage_of_normal_missing_average_witness :
  let values :=
    nan :: (Reference.f <$> [2; 3; 4; 5; 6; 7; 8; 9; 10; 11; 12]) in
  isnan (@calendar_month_average Reference.collaborators values 2000 2000 2000 0)
  = true
  /\ exists out,
       @percentage_of_normal Reference.collaborators values 1 2000 2000 2000
       = ([Called Sum_to_scale], inr out)
       /\ length out = length values
       /\ forall i, (i < length values)%nat ->
            isnan (@calendar_month_average Reference.collaborators values 2000 2000
                     2000 (i mod 12)) = true ->
            out !! i = Some nan.
Proof.
  intros values. split; [vm_compute; reflexivity | ].
  apply (@percentage_of_normal_missing_average Reference.collaborators values 1 2000
           2000 2000 values).
  - lia.
  - simpl. lia.
  - vm_compute. reflexivity.
Defined.

(** * Further properties of the drivers *)

(** ** Comparisons of binary64 values *)

Lemma SFcompare_swap (x y : float64) :
  SFcompare y x = CompOpp <$> SFcompare x y.
Proof.
  destruct x as [sx | sx | | sx mx ex], y as [sy | sy | | sy my ey]; simpl;
    try destruct sx; try destruct sy; try reflexivity.
  - rewrite (Z.compare_antisym ex ey).
    destruct (ex ?= ey); simpl; try reflexivity.
    rewrite (Pos.compare_cont_antisym mx my Eq). reflexivity.
  - rewrite (Z.compare_antisym ex ey).
    destruct (ex ?= ey); simpl; try reflexivity.
    rewrite (Pos.compare_cont_antisym mx my Eq). reflexivity.
Qed.

Lemma leb_not_ltb (x y : float64) : leb x y = true -> ltb y x = false.
Proof.
  unfold leb, ltb, SFleb, SFltb. rewrite (SFcompare_swap x y).
  destruct (SFcompare x y) as [[ | | ] | ]; simpl; congruence.
Qed.

Lemma ltb_not_ltb (x y : float64) : ltb x y = true -> ltb y x = false.
Proof. intros H. apply leb_not_ltb, ltb_leb, H. Qed.

(** Two values that compare equal, one of them finite and not zero, are the
    same value. *)
Lemma SFcompare_Eq_finite (s : bool) (m : positive) (e : Z) (x : float64) :
  SFcompare (S754_finite s m e) x = Some Eq -> x = S754_finite s m e.
Proof.
  destruct x as [sx | sx | | sx mx ex]; simpl.
  - destruct s; discriminate.
  - destruct sx; discriminate.
  - discriminate.
  - destruct s, sx; try discriminate.
    + destruct (e ?= ex) eqn:He; try discriminate.
      apply Z.compare_eq in He. subst ex.
      destruct (Pos.compare_cont Eq m mx) eqn:Hm; try discriminate.
      apply Pos.compare_eq in Hm. now subst mx.
    + destruct (e ?= ex) eqn:He; try discriminate.
      apply Z.compare_eq in He. subst ex.
      intros [= Hm]. apply Pos.compare_eq in Hm. now subst mx.
Qed.

Lemma leb_cases_finite_l (s : bool) (m : positive) (e : Z) (x : float64) :
  leb (S754_finite s m e) x = true ->
  ltb (S754_finite s m e) x = true \/ x = S754_finite s m e.
Proof.
  unfold leb, ltb, SFleb, SFltb.
  destruct (SFcompare (S754_finite s m e) x) as [[ | | ] | ] eqn:Hc; try discriminate.
  - right. now apply SFcompare_Eq_finite.
  - now left.
Qed.

Lemma leb_cases_finite_r (s : bool) (m : positive) (e : Z) (x : float64) :
  leb x (S754_finite s m e) = true ->
  ltb x (S754_finite s m e) = true \/ x = S754_finite s m e.
Proof.
  unfold leb, ltb, SFleb, SFltb. rewrite (SFcompare_swap (S754_finite s m e) x).
  destruct (SFcompare (S754_finite s m e) x) as [[ | | ] | ] eqn:Hc;
    simpl; try discriminate.
  - right. now apply SFcompare_Eq_finite.
  - now left.
Qed.

(** ** What the clipping does to a value *)

Lemma np_clip_map (a : array) :
  np_clip a _FITTED_INDEX_VALID_MIN _FITTED_INDEX_VALID_MAX
  = map clip_to_valid_range a.
Proof. reflexivity. Qed.

Lemma clip_nan (x : float64) : isnan x = true -> clip_to_valid_range x = x.
Proof. destruct x; try discriminate. reflexivity. Qed.

Lemma clip_below (x : float64) :
  ltb x _FITTED_INDEX_VALID_MIN = true ->
  clip_to_valid_range x = _FITTED_INDEX_VALID_MIN.
Proof.
  intros Hlt. unfold clip_to_valid_range, np_maximum.
  replace (isnan x) with false by (destruct x; [reflexivity .. | discriminate | reflexivity]).
  change (isnan _FITTED_INDEX_VALID_MIN) with false. cbv iota.
  rewrite (ltb_not_ltb _ _ Hlt). reflexivity.
Qed.

Lemma clip_above (x : float64) :
  ltb _FITTED_INDEX_VALID_MAX x = true ->
  clip_to_valid_range x = _FITTED_INDEX_VALID_MAX.
Proof.
  intros Hgt. pose proof (ltb_not_ltb _ _ Hgt) as Hnot.
  destruct x as [s | s | | s m e]; try destruct s; try discriminate Hgt.
  - reflexivity.
  - unfold clip_to_valid_range, np_maximum, np_minimum.
    change (isnan (S754_finite false m e)) with false.
    change (isnan _FITTED_INDEX_VALID_MIN) with false.
    change (isnan _FITTED_INDEX_VALID_MAX) with false. cbv iota.
    change (ltb _FITTED_INDEX_VALID_MIN (S754_finite false m e)) with true. cbv iota.
    change (isnan (S754_finite false m e)) with false. cbv iota.
    now rewrite Hnot.
Qed.

Lemma clip_within (x : float64) :
  leb _FITTED_INDEX_VALID_MIN x = true ->
  leb x _FITTED_INDEX_VALID_MAX = true ->
  clip_to_valid_range x = x.
Proof.
  intros Hlo Hhi.
  destruct (leb_cases_finite_l true 6958061424287416 (-51) x Hlo) as [Hlo' | ->];
    [ | reflexivity].
  destruct (leb_cases_finite_r false 6958061424287416 (-51) x Hhi) as [Hhi' | ->];
    [ | reflexivity].
  change (ltb _FITTED_INDEX_VALID_MIN x = true) in Hlo'.
  change (ltb x _FITTED_INDEX_VALID_MAX = true) in Hhi'.
  clear Hlo Hhi. rename Hlo' into Hlo, Hhi' into Hhi.
  unfold clip_to_valid_range, np_maximum, np_minimum.
  assert (Hnan : isnan x = false)
    by (destruct x; [reflexivity .. | discriminate | reflexivity]).
  rewrite Hnan. change (isnan _FITTED_INDEX_VALID_MIN) with false. cbv iota.
  rewrite Hlo, Hnan. change (isnan _FITTED_INDEX_VALID_MAX) with false. cbv iota.
  now rewrite Hhi.
Qed.

(** X1.  The clipping of the fitted drivers keeps a missing marker and
    makes none, sets a value below -3.09 to -3.09 and a value above 3.09 to
    3.09, and returns a value of [[-3.09, 3.09]] unchanged. *)
Theorem clip_to_valid_range_cases (x : float64) :
  isnan (clip_to_valid_range x) = isnan x
  /\ (ltb x _FITTED_INDEX_VALID_MIN = true ->
      clip_to_valid_range x = _FITTED_INDEX_VALID_MIN)
  /\ (ltb _FITTED_INDEX_VALID_MAX x = true ->
      clip_to_valid_range x = _FITTED_INDEX_VALID_MAX)
  /\ (leb _FITTED_INDEX_VALID_MIN x = true -> leb x _FITTED_INDEX_VALID_MAX = true ->
      clip_to_valid_range x = x).
Proof.
  split; [ | split; [apply clip_below | split; [apply clip_above | apply clip_within]]].
  destruct (isnan x) eqn:Hnan; [now rewrite clip_nan | ].
  pose proof (np_clip_scalar_valid x) as Hvalid.
  fold (clip_to_valid_range x) in Hvalid. unfold fitted_index_valid in Hvalid.
  unfold clip_to_valid_range, np_maximum, np_minimum in *.
  rewrite Hnan in *. change (isnan _FITTED_INDEX_VALID_MIN) with false in *.
  cbv iota in *.
  destruct (ltb _FITTED_INDEX_VALID_MIN x); [ | reflexivity].
  rewrite Hnan. change (isnan _FITTED_INDEX_VALID_MAX) with false. cbv iota.
  destruct (ltb x _FITTED_INDEX_VALID_MAX); [exact Hnan | reflexivity].
Qed.

Lemma clip_to_valid_range_cases_witness :
  clip_to_valid_range (Reference.f (-7)) = _FITTED_INDEX_VALID_MIN
  /\ clip_to_valid_range (Reference.f 5) = _FITTED_INDEX_VALID_MAX
  /\ clip_to_valid_range (Reference.f 2) = Reference.f 2.
Proof.
  split; [ | split].
  - apply (clip_to_valid_range_cases (Reference.f (-7))). vm_compute. reflexivity.
  - apply (clip_to_valid_range_cases (Reference.f 5)). vm_compute. reflexivity.
  - apply (clip_to_valid_range_cases (Reference.f 2)); vm_compute; reflexivity.
Defined.

(** ** The values of the SPI drivers *)

Lemma py_slice_prefix {A : Type} (xs : list A) (n : nat) :
  py_slice xs 0 (Z.of_nat n) = take n xs.
Proof.
  unfold py_slice. rewrite slice_bound_0, slice_bound_nonneg by lia.
  rewrite drop_0, Nat.sub_0_r, Nat2Z.id.
  destruct (Nat.le_ge_cases n (length xs)) as [Hle | Hge].
  - now rewrite Nat.min_r.
  - rewrite Nat.min_l by exact Hge. now rewrite !take_ge by lia.
Qed.

Lemma clipped_prefix (a : array) (n : nat) :
  py_slice (np_clip a _FITTED_INDEX_VALID_MIN _FITTED_INDEX_VALID_MAX) 0 (Z.of_nat n)
  = map clip_to_valid_range (take n a).
Proof. rewrite py_slice_prefix, np_clip_map. apply firstn_map. Qed.

(** X2.  When [spi_gamma] or [spi_pearson] returns, the scaler and the
    transform were each entered once, in that order, and both returned; the
    result is, element by element, the clipping of the first
    [len(precips)] values that the transform returned for the scaled
    series. *)
Theorem spi_values `{Collaborators} (precips : array) (months_scale : Z)
    (tr : list event) (out : array) :
  (spi_gamma precips months_scale = (tr, inr out) ->
   exists scaled transformed,
     sum_to_scale precips months_scale = inr scaled
     /\ transform_fitted_gamma scaled = inr transformed
     /\ tr = [Called Sum_to_scale; Called Transform_fitted_gamma]
     /\ out = map clip_to_valid_range (take (length precips) transformed))
  /\ (forall y ci cf,
        spi_pearson precips months_scale y ci cf = (tr, inr out) ->
        exists scaled transformed,
          sum_to_scale precips months_scale = inr scaled
          /\ transform_fitted_pearson scaled y ci cf = inr transformed
          /\ tr = [Called Sum_to_scale; Called Transform_fitted_pearson]
          /\ out = map clip_to_valid_range (take (length precips) transformed)).
Proof.
  split.
  - unfold spi_gamma. intros Hrun.
    destruct (sum_to_scale precips months_scale) as [e | scaled]; [discriminate | ].
    rewrite bind_call_inr in Hrun.
    destruct (transform_fitted_gamma scaled) as [e | transformed] eqn:Ht;
      [discriminate | ].
    rewrite bind_call_inr, clipped_prefix in Hrun. simpl in Hrun.
    injection Hrun as <- <-. eauto 6.
  - unfold spi_pearson. intros y ci cf Hrun.
    destruct (sum_to_scale precips months_scale) as [e | scaled]; [discriminate | ].
    rewrite bind_call_inr in Hrun.
    destruct (transform_fitted_pearson scaled y ci cf) as [e | transformed] eqn:Ht;
      [discriminate | ].
    rewrite bind_call_inr, clipped_prefix in Hrun. simpl in Hrun.
    injection Hrun as <- <-. eauto 6.
Qed.

Lemma spi_values_witness :
  let precips := Reference.f <$> [1; 2; 3; 4; 5] in
  exists scaled transformed,
    @sum_to_scale Reference.collaborators precips 3 = inr scaled
    /\ @transform_fitted_gamma Reference.collaborators scaled = inr transformed
    /\ [Called Sum_to_scale; Called Transform_fitted_gamma]
       = [Called Sum_to_scale; Called Transform_fitted_gamma]
    /\ [nan; nan; lit_3_09; lit_3_09; lit_3_09]
       = map clip_to_valid_range (take (length precips) transformed).
Proof.
  intros precips.
  apply (@spi_values Reference.collaborators precips 3
           [Called Sum_to_scale; Called Transform_fitted_gamma]
           [nan; nan; lit_3_09; lit_3_09; lit_3_09]).
  vm_compute. reflexivity.
Defined.

(** ** The argument combinations of the SPEI drivers *)

(** X3.  With a temperature array that is not empty, no PET array, and the
    latitude or the data start year [None], [spei_gamma] raises a
    [ValueError] and neither [pet] nor [compute] is entered: for a
    temperature array of one element the logged error of missing arguments,
    for a longer one the error of numpy on the truth value of
    [temps_celsius != None]. *)
Theorem spei_gamma_missing_arguments `{Collaborators} (months_scale : Z)
    (precips_mm temps_celsius : array) (data_start_year : option Z)
    (latitude_degrees : option float64) :
  temps_celsius <> [] ->
  latitude_degrees = None \/ data_start_year = None ->
  spei_gamma months_scale precips_mm None (Some temps_celsius) data_start_year
    latitude_degrees
  = match temps_celsius with
    | [_] => ([Log_error Missing_arguments], inl (ValueError Missing_arguments))
    | _ => ([], inl (ValueError Truth_value_ambiguous))
    end.
Proof.
  intros Htemps Hmissing.
  destruct temps_celsius as [ | t [ | t' temps]]; [contradiction | | reflexivity].
  destruct Hmissing as [-> | ->]; unfold spei_gamma; simpl.
  - reflexivity.
  - destruct latitude_degrees; reflexivity.
Qed.

Lemma spei_gamma_missing_arguments_witness :
  @spei_gamma Reference.collaborators 3 [Reference.f 70] None
    (Some [Reference.f 10]) None (Some (Reference.f 40))
  = ([Log_error Missing_arguments], inl (ValueError Missing_arguments))
  /\ @spei_gamma Reference.collaborators 3 (Reference.f <$> [70; 80; 90]) None
       (Some (Reference.f <$> [10; 20; 30])) None (Some (Reference.f 40))
     = ([], inl (ValueError Truth_value_ambiguous)).
Proof.
  split.
  - refine (@spei_gamma_missing_arguments Reference.collaborators 3 [Reference.f 70]
              [Reference.f 10] None (Some (Reference.f 40)) _ _).
    + discriminate.
    + right. reflexivity.
  - refine (@spei_gamma_missing_arguments Reference.collaborators 3
              (Reference.f <$> [70; 80; 90]) (Reference.f <$> [10; 20; 30]) None
              (Some (Reference.f 40)) _ _).
    + discriminate.
    + right. reflexivity.
Defined.

(** X4.  The size checks of [spei_gamma] are reached with a PET or a
    temperature array of one element only: against a precipitation array of
    another size, and with an otherwise valid combination of arguments,
    [spei_gamma] logs and raises the [ValueError] of incompatible arrays, on
    the temperature path before [pet] is called. *)
Theorem spei_gamma_incompatible_sizes `{Collaborators} (months_scale : Z)
    (precips_mm : array) (value : float64) (year : Z) (latitude : float64) :
  length precips_mm <> 1%nat ->
  spei_gamma months_scale precips_mm (Some [value]) None None None
  = ([Log_error Incompatible_precipitation_and_PET_arrays],
     inl (ValueError Incompatible_precipitation_and_PET_arrays))
  /\ spei_gamma months_scale precips_mm None (Some [value]) (Some year) (Some latitude)
     = ([Log_error Incompatible_precipitation_and_temperature_arrays],
        inl (ValueError Incompatible_precipitation_and_temperature_arrays)).
Proof.
  intros Hsize. apply Nat.eqb_neq in Hsize.
  unfold spei_gamma. simpl. rewrite Hsize. split; reflexivity.
Qed.

Lemma spei_gamma_incompatible_sizes_witness :
  let precips := Reference.f <$> [70; 80; 90] in
  @spei_gamma Reference.collaborators 3 precips (Some [Reference.f 10]) None None None
  = ([Log_error Incompatible_precipitation_and_PET_arrays],
     inl (ValueError Incompatible_precipitation_and_PET_arrays))
  /\ @spei_gamma Reference.collaborators 3 precips None (Some [Reference.f 10])
       (Some 1895) (Some (Reference.f 40))
     = ([Log_error Incompatible_precipitation_and_temperature_arrays],
        inl (ValueError Incompatible_precipitation_and_temperature_arrays)).
Proof.
  intros precips.
  apply (@spei_gamma_incompatible_sizes Reference.collaborators 3 precips
           (Reference.f 10) 1895 (Reference.f 40)).
  simpl. lia.
Defined.

(** The size of an array that may be [None]. *)
Lemma np_subtract_sizes (precips_mm : array) (pet_mm : option array) tr difference :
  np_subtract precips_mm pet_mm = (tr, inr difference) ->
  match pet_mm with
  | None => precips_mm = []
  | Some [] => (length precips_mm <= 1)%nat
  | Some _ => True
  end.
Proof.
  destruct pet_mm as [[ | p pet_mm] | ]; [ | trivial | ].
  - destruct precips_mm as [ | x [ | x' precips_mm]]; simpl; [lia | lia | discriminate].
  - destruct precips_mm; [reflexivity | discriminate].
Qed.

(** X5.  [spei_gamma] returns an array only when the precipitation array,
    the PET array and the temperature array, as far as given, have at most
    one element each: with a longer array one of the tests [!= None], a size
    check or the subtraction raises. *)
Theorem spei_gamma_returns_only_for_single_values `{Collaborators}
    (months_scale : Z) (precips_mm : array) (pet_mm temps_celsius : option array)
    (data_start_year : option Z) (latitude_degrees : option float64)
    (tr : list event) (out : array) :
  spei_gamma months_scale precips_mm pet_mm temps_celsius data_start_year
    latitude_degrees = (tr, inr out) ->
  (length precips_mm <= 1)%nat
  /\ (forall a, pet_mm = Some a -> (length a <= 1)%nat)
  /\ (forall a, temps_celsius = Some a -> (length a <= 1)%nat).
Proof.
  unfold spei_gamma. intros Hrun. inv_ok Hrun. inv_ok Hk. clear Hk0.
  apply np_subtract_sizes in Hm0.
  none_tests Hm; validation_result Hm;
    try (injection Hm as _ <-; simpl in *; subst;
         repeat split; try (intros ? [= <-]); simpl; try discriminate; lia).
  all: repeat split; try (intros ? [= <-]); simpl in *; try discriminate; lia.
Qed.

Lemma spei_gamma_returns_only_for_single_values_witness :
  let precips := [Reference.f 70] in
  let pet_mm : option array := Some [Reference.f 10] in
  let temps_celsius : option array := None in
  (length precips <= 1)%nat
  /\ (forall a, pet_mm = Some a -> (length a <= 1)%nat)
  /\ (forall a, temps_celsius = Some a -> (length a <= 1)%nat).
Proof.
  intros precips pet_mm temps_celsius.
  apply (@spei_gamma_returns_only_for_single_values Reference.collaborators 1
           precips pet_mm temps_celsius None None
           [Called Sum_to_scale; Called Transform_fitted_gamma] [lit_3_09]).
  vm_compute. reflexivity.
Defined.

(** X6.  The validation of [spei_pearson] on arrays of one element: a PET
    array together with a temperature array, a temperature array without a
    latitude, and a PET array with a latitude are each logged and raised as a
    [ValueError] before anything is computed; with neither array nothing is
    logged, and for a precipitation array that is not empty the subtraction
    raises the [TypeError] of numpy. *)
Theorem spei_pearson_invalid_arguments `{Collaborators} (months_scale data_start_year : Z)
    (precips_mm : array) (ci cf : Z) :
  (forall p t latitude,
     spei_pearson months_scale data_start_year precips_mm (Some [p]) (Some [t])
       latitude ci cf
     = ([Log_error Incompatible_arguments], inl (ValueError Incompatible_arguments)))
  /\ (forall t,
        spei_pearson months_scale data_start_year precips_mm None (Some [t]) None
          ci cf
        = ([Log_error Missing_arguments], inl (ValueError Missing_arguments)))
  /\ (forall p latitude,
        spei_pearson months_scale data_start_year precips_mm (Some [p]) None
          (Some latitude) ci cf
        = ([Log_error Extraneous_arguments], inl (ValueError Extraneous_arguments)))
  /\ (forall latitude,
        precips_mm <> [] ->
        spei_pearson months_scale data_start_year precips_mm None None latitude ci cf
        = ([], inl (TypeError Unsupported_operand_types))).
Proof.
  repeat split; try reflexivity.
  intros latitude Hprecips. destruct precips_mm; [contradiction | reflexivity].
Qed.

Lemma spei_pearson_invalid_arguments_witness :
  @spei_pearson Reference.collaborators 3 1895 [Reference.f 70] None None None
    1981 2010
  = ([], inl (TypeError Unsupported_operand_types)).
Proof.
  apply (@spei_pearson_invalid_arguments Reference.collaborators 3 1895
           [Reference.f 70] 1981 2010).
  discriminate.
Defined.

(** X7.  [spei_pearson] returns an array only when the precipitation array,
    the PET array and the temperature array, as far as given, have at most
    one element each. *)
Theorem spei_pearson_returns_only_for_single_values `{Collaborators}
    (months_scale data_start_year : Z) (precips_mm : array)
    (pet_mm temps_celsius : option array) (latitude_degrees : option float64)
    (ci cf : Z) (tr : list event) (out : array) :
  spei_pearson months_scale data_start_year precips_mm pet_mm temps_celsius
    latitude_degrees ci cf = (tr, inr out) ->
  (length precips_mm <= 1)%nat
  /\ (forall a, pet_mm = Some a -> (length a <= 1)%nat)
  /\ (forall a, temps_celsius = Some a -> (length a <= 1)%nat).
Proof.
  unfold spei_pearson. intros Hrun. inv_ok Hrun. inv_ok Hk. clear Hk0.
  apply np_subtract_sizes in Hm0.
  none_tests Hm; validation_result Hm;
    try (injection Hm as _ <-; simpl in *; subst;
         repeat split; try (intros ? [= <-]); simpl; try discriminate; lia).
  all: repeat split; try (intros ? [= <-]); simpl in *; try discriminate; lia.
Qed.

Lemma spei_pearson_returns_only_for_single_values_witness :
  let precips := [Reference.f 70] in
  let pet_mm : option array := None in
  let temps_celsius : option array := Some [nan] in
  (length precips <= 1)%nat
  /\ (forall a, pet_mm = Some a -> (length a <= 1)%nat)
  /\ (forall a, temps_celsius = Some a -> (length a <= 1)%nat).
Proof.
  intros precips pet_mm temps_celsius.
  apply (@spei_pearson_returns_only_for_single_values Reference.collaborators 1 1895
           precips pet_mm temps_celsius (Some (Reference.f 40)) 1981 2010
           [Called Sum_to_scale; Called Transform_fitted_pearson] [nan]).
  vm_compute. reflexivity.
Defined.

(** ** SPEI as SPI of the water balance *)

(** X8.  For a precipitation array and a PET array of one element each, and
    nothing else given, [spei_gamma] is [spi_gamma], and [spei_pearson] is
    [spi_pearson], of the one-element series [(precips_mm - pet_mm) +
    1000.0], events included. *)
Theorem spei_with_pet_is_spi_of_balance `{Collaborators} (months_scale : Z)
    (precip pet_value : float64) :
  let p_minus_pet := [add (sub precip pet_value) lit_1000] in
  spei_gamma months_scale [precip] (Some [pet_value]) None None None
  = spi_gamma p_minus_pet months_scale
  /\ forall data_start_year ci cf,
       spei_pearson months_scale data_start_year [precip] (Some [pet_value]) None
         None ci cf
       = spi_pearson p_minus_pet months_scale data_start_year ci cf.
Proof.
  cbv zeta. split; [ | intros data_start_year ci cf].
  - unfold spei_gamma, spi_gamma, array_ne_None.
    repeat (rewrite !bind_ret_l; cbn [is_not_None orb length Nat.eqb negb]).
    unfold np_subtract. cbn [length Nat.eqb]. rewrite bind_ret_l. reflexivity.
  - unfold spei_pearson, spi_pearson, array_ne_None.
    repeat (rewrite !bind_ret_l; cbn [is_not_None orb length Nat.eqb negb]).
    unfold np_subtract. cbn [length Nat.eqb]. rewrite bind_ret_l. reflexivity.
Qed.

(** ** The temperature path of the SPEI drivers *)

Lemma bind_value {A B : Type} (t : list event) (a : A) (f : A -> M B) :
  ((t, inr a) ≫= f) = (t ++ (f a).1, (f a).2).
Proof. unfold mbind, M_bind. destruct (f a); reflexivity. Qed.

(** X9.  With a precipitation array and a temperature array of one element
    each, a latitude and a start year, and [pet] returning a PET array of one
    element, [spei_gamma] and [spei_pearson] behave as on that PET array
    supplied directly, after the events of [pet]. *)
Theorem spei_temperature_path `{Collaborators} (months_scale year : Z)
    (precip temp pet_value latitude : float64) (t : list event) :
  pet [temp] latitude year = (t, inr [pet_value]) ->
  (let direct :=
     spei_gamma months_scale [precip] (Some [pet_value]) None None None in
   spei_gamma months_scale [precip] None (Some [temp]) (Some year) (Some latitude)
   = (t ++ direct.1, direct.2))
  /\ forall ci cf,
       let direct :=
         spei_pearson months_scale year [precip] (Some [pet_value]) None None ci cf in
       spei_pearson months_scale year [precip] None (Some [temp]) (Some latitude)
         ci cf
       = (t ++ direct.1, direct.2).
Proof.
  intros Hpet. split; [ | intros ci cf].
  - cbv zeta. unfold spei_gamma, array_ne_None.
    cbn [is_not_None orb length Nat.eqb negb]. rewrite !bind_ret_l.
    cbn [is_not_None orb length Nat.eqb negb].
    rewrite Hpet, bind_value. cbn [fst snd mret M_ret].
    rewrite app_nil_r, bind_value. reflexivity.
  - cbv zeta. unfold spei_pearson, array_ne_None.
    cbn [is_not_None orb length Nat.eqb negb]. rewrite !bind_ret_l.
    cbn [is_not_None orb length Nat.eqb negb].
    rewrite Hpet, bind_value. cbn [fst snd mret M_ret].
    rewrite app_nil_r, bind_value. reflexivity.
Qed.

Lemma spei_temperature_path_witness :
  let precip := Reference.f 70 in
  let temp := Reference.f 10 in
  let latitude := Reference.f 40 in
  let t := [Called Potential_evapotranspiration] in
  (let direct :=
     @spei_gamma Reference.collaborators 1 [precip] (Some [zero]) None None None in
   @spei_gamma Reference.collaborators 1 [precip] None (Some [temp]) (Some 1895)
     (Some latitude)
   = (t ++ direct.1, direct.2))
  /\ forall ci cf,
       let direct :=
         @spei_pearson Reference.collaborators 1 1895 [precip] (Some [zero]) None
           None ci cf in
       @spei_pearson Reference.collaborators 1 1895 [precip] None (Some [temp])
         (Some latitude) ci cf
       = (t ++ direct.1, direct.2).
Proof.
  intros precip temp latitude t.
  apply (@spei_temperature_path Reference.collaborators 1 1895 precip temp zero
           latitude t).
  vm_compute. reflexivity.
Defined.

(** X20.  A PET or temperature array of more than one element never passes
    the tests [!= None]: [spei_gamma] and [spei_pearson] then raise the
    [ValueError] of numpy on the truth value of an array, without logging
    and before anything is computed, for a valid combination of arguments as
    for any other. *)
Theorem spei_arrays_longer_than_one_raise `{Collaborators} (months_scale : Z)
    (precips_mm longer : array) :
  (1 < length longer)%nat ->
  let error := ([], inl (ValueError Truth_value_ambiguous)) in
  (forall pet_mm year latitude,
     spei_gamma months_scale precips_mm pet_mm (Some longer) year latitude = error)
  /\ (forall year latitude,
        spei_gamma months_scale precips_mm (Some longer) None year latitude = error)
  /\ (forall data_start_year pet_mm latitude ci cf,
        spei_pearson months_scale data_start_year precips_mm pet_mm (Some longer)
          latitude ci cf = error)
  /\ (forall data_start_year latitude ci cf,
        spei_pearson months_scale data_start_year precips_mm (Some longer) None
          latitude ci cf = error).
Proof.
  intros Hlen error.
  destruct longer as [ | v [ | v' longer]]; simpl in Hlen; try lia.
  repeat split; reflexivity.
Qed.

Lemma spei_arrays_longer_than_one_raise_witness :
  let precips := Reference.f <$> [70; 80; 90] in
  let pet_values := Reference.f <$> [10; 20; 30] in
  @spei_gamma Reference.collaborators 3 precips (Some pet_values) None None None
  = ([], inl (ValueError Truth_value_ambiguous))
  /\ @spei_pearson Reference.collaborators 3 1895 precips (Some pet_values) None None
       1981 2010
     = ([], inl (ValueError Truth_value_ambiguous)).
Proof.
  intros precips pet_values.
  destruct (@spei_arrays_longer_than_one_raise Reference.collaborators 3 precips
              pet_values) as (_ & Hgamma & _ & Hpearson); [simpl; lia | ].
  split; [apply Hgamma | apply Hpearson].
Defined.

(** ** The three cases of [pet] *)

Lemma pet_guard_fails `{Collaborators} (temps : array) (latitude : float64) (year : Z) :
  forallb isnan temps = false ->
  negb (isnan latitude) && ltb latitude lit_90 && ltb (SFopp lit_90) latitude = false ->
  pet temps latitude year
  = ([Log_error (Invalid_latitude_value latitude)],
     inl (ValueError (Invalid_latitude_value latitude))).
Proof. intros Htemps Hguard. unfold pet. now rewrite Htemps, Hguard. Qed.

(** X10.  For a temperature series that is not entirely missing and a
    latitude strictly between -90 and 90, [pet] logs nothing and hands the
    three arguments to Thornthwaite's equation, whose result or exception is
    that of [pet]. *)
Theorem pet_delegates_to_thornthwaite `{Collaborators}
    (temperature_monthly_celsius : array) (latitude_degrees : float64)
    (data_start_year : Z) :
  Exists (fun t => isnan t = false) temperature_monthly_celsius ->
  ltb (SFopp lit_90) latitude_degrees = true ->
  ltb latitude_degrees lit_90 = true ->
  pet temperature_monthly_celsius latitude_degrees data_start_year
  = ([Called Potential_evapotranspiration],
     potential_evapotranspiration temperature_monthly_celsius latitude_degrees
       data_start_year).
Proof.
  intros Htemps Hlo Hhi. unfold pet.
  rewrite (forallb_isnan_false _ Htemps), Hlo, Hhi.
  replace (isnan latitude_degrees) with false
    by (destruct latitude_degrees; [reflexivity .. | discriminate | reflexivity]).
  reflexivity.
Qed.

Lemma pet_delegates_to_thornthwaite_witness :
  let temps := [Reference.f 20; nan; Reference.f 25] in
  @pet Reference.collaborators temps (Reference.f 45) 2000
  = ([Called Potential_evapotranspiration],
     @potential_evapotranspiration Reference.collaborators temps (Reference.f 45) 2000).
Proof.
  intros temps.
  apply (@pet_delegates_to_thornthwaite Reference.collaborators temps
           (Reference.f 45) 2000).
  - apply Exists_cons_hd. reflexivity.
  - vm_compute. reflexivity.
  - vm_compute. reflexivity.
Defined.

(** X11.  The two ends of the range are rejected: for a temperature series
    that is not entirely missing, a latitude of 90 or more, or of -90 or
    less, makes [pet] log and raise the [ValueError] of an invalid
    latitude. *)
Theorem pet_rejects_latitude_at_the_poles `{Collaborators}
    (temperature_monthly_celsius : array) (latitude_degrees : float64)
    (data_start_year : Z) :
  Exists (fun t => isnan t = false) temperature_monthly_celsius ->
  leb lit_90 latitude_degrees = true \/ leb latitude_degrees (SFopp lit_90) = true ->
  pet temperature_monthly_celsius latitude_degrees data_start_year
  = ([Log_error (Invalid_latitude_value latitude_degrees)],
     inl (ValueError (Invalid_latitude_value latitude_degrees))).
Proof.
  intros Htemps Hlat. apply pet_guard_fails; [now apply forallb_isnan_false | ].
  destruct Hlat as [Hlat | Hlat]; apply leb_not_ltb in Hlat; rewrite Hlat.
  - now rewrite andb_false_r.
  - apply andb_false_r.
Qed.

Lemma pet_rejects_latitude_at_the_poles_witness :
  let temps := [Reference.f 20; nan; Reference.f 25] in
  @pet Reference.collaborators temps lit_90 2000
  = ([Log_error (Invalid_latitude_value lit_90)],
     inl (ValueError (Invalid_latitude_value lit_90)))
  /\ @pet Reference.collaborators temps (SFopp lit_90) 2000
     = ([Log_error (Invalid_latitude_value (SFopp lit_90))],
        inl (ValueError (Invalid_latitude_value (SFopp lit_90)))).
Proof.
  intros temps. split.
  - apply (@pet_rejects_latitude_at_the_poles Reference.collaborators temps lit_90
             2000).
    + apply Exists_cons_hd. reflexivity.
    + left. reflexivity.
  - apply (@pet_rejects_latitude_at_the_poles Reference.collaborators temps
             (SFopp lit_90) 2000).
    + apply Exists_cons_hd. reflexivity.
    + right. reflexivity.
Defined.

(** X12.  On the temperature path, with a precipitation array and a
    temperature array of one element each, an invalid latitude stops
    [spei_gamma] and [spei_pearson] with the [ValueError] of [pet], before
    the scaler is entered. *)
Theorem spei_invalid_latitude `{Collaborators} (months_scale year : Z)
    (precip temp latitude : float64) :
  isnan temp = false ->
  isnan latitude = true
  \/ ~ (ltb (SFopp lit_90) latitude = true /\ ltb latitude lit_90 = true) ->
  let error :=
    ([Log_error (Invalid_latitude_value latitude)],
     inl (ValueError (Invalid_latitude_value latitude))) in
  spei_gamma months_scale [precip] None (Some [temp]) (Some year) (Some latitude)
  = error
  /\ forall ci cf,
       spei_pearson months_scale year [precip] None (Some [temp]) (Some latitude)
         ci cf
       = error.
Proof.
  intros Htemp Hlat error.
  assert (Hpet : pet [temp] latitude year = error).
  { apply pet_guard_fails; [simpl; now rewrite Htemp | ].
    destruct Hlat as [-> | Hlat]; [reflexivity | ].
    destruct (isnan latitude); [reflexivity | ].
    destruct (ltb latitude lit_90) eqn:Hhi; [ | reflexivity].
    destruct (ltb (SFopp lit_90) latitude) eqn:Hlo; [ | reflexivity].
    destruct Hlat. split; reflexivity. }
  split; [ | intros ci cf].
  - unfold spei_gamma, array_ne_None.
    repeat (rewrite !bind_ret_l; cbn [is_not_None orb length Nat.eqb negb]).
    rewrite Hpet. reflexivity.
  - unfold spei_pearson, array_ne_None.
    repeat (rewrite !bind_ret_l; cbn [is_not_None orb length Nat.eqb negb]).
    rewrite Hpet. reflexivity.
Qed.

Lemma spei_invalid_latitude_witness :
  let precip := Reference.f 70 in
  let temp := Reference.f 10 in
  let latitude := Reference.f 95 in
  let error :=
    ([Log_error (Invalid_latitude_value latitude)],
     inl (ValueError (Invalid_latitude_value latitude))) in
  @spei_gamma Reference.collaborators 2 [precip] None (Some [temp]) (Some 1895)
    (Some latitude) = error
  /\ forall ci cf,
       @spei_pearson Reference.collaborators 2 1895 [precip] None (Some [temp])
         (Some latitude) ci cf = error.
Proof.
  intros precip temp latitude.
  apply (@spei_invalid_latitude Reference.collaborators 2 1895 precip temp latitude).
  - reflexivity.
  - right. intros [_ Hhi]. vm_compute in Hhi. discriminate Hhi.
Defined.

(** ** The fitted drivers never lengthen the series *)

Lemma run_fitted_prefix `{Collaborators} (c : fitted_call) tr out :
  run_fitted c = (tr, inr out) ->
  exists a,
    out = map clip_to_valid_range (take (length (primary_input (Call_fitted c))) a).
Proof.
  destruct c; simpl; intros Hrun.
  - unfold spi_gamma in Hrun. inv_ok Hrun. inv_ok Hk. inv_ok Hk0. subst.
    eexists. apply clipped_prefix.
  - unfold spi_pearson in Hrun. inv_ok Hrun. inv_ok Hk. inv_ok Hk0. subst.
    eexists. apply clipped_prefix.
  - unfold spei_gamma in Hrun. inv_ok Hrun. inv_ok Hk. inv_ok Hk0. inv_ok Hk.
    inv_ok Hk0. subst. eexists. apply clipped_prefix.
  - unfold spei_pearson in Hrun. inv_ok Hrun. inv_ok Hk. inv_ok Hk0. inv_ok Hk.
    inv_ok Hk0. subst. eexists. apply clipped_prefix.
Qed.

(** X13.  Whatever the functions of [compute] and [thornthwaite] return,
    an array returned by [spi_gamma], [spi_pearson], [spei_gamma] or
    [spei_pearson] has at most the length of the precipitation array; for an
    empty precipitation array it is empty. *)
Theorem fitted_output_never_longer `{Collaborators} (c : fitted_call)
    (tr : list event) (out : array) :
  run_fitted c = (tr, inr out) ->
  (length out <= length (primary_input (Call_fitted c)))%nat.
Proof.
  intros Hrun. apply run_fitted_prefix in Hrun as [a ->].
  rewrite length_map, length_take. lia.
Qed.

Lemma fitted_output_never_longer_witness :
  let c := Call_spi_gamma (Reference.f <$> [1; 2; 3; 4; 5]) 3 in
  let out := [nan; nan; lit_3_09; lit_3_09; lit_3_09] in
  @transform_fitted_gamma Reference.collaborators
    (Reference.sum_to_scale_model (Reference.f <$> [1; 2; 3; 4; 5]) 3)
  = inr ([nan; nan; Reference.f 6; Reference.f 9; Reference.f 12]
         ++ replicate 7 nan)
  /\ @run_fitted Reference.collaborators c
     = ([Called Sum_to_scale; Called Transform_fitted_gamma], inr out)
  /\ (length out <= length (primary_input (Call_fitted c)))%nat.
Proof.
  intros c out.
  assert (Hrun : @run_fitted Reference.collaborators c
                 = ([Called Sum_to_scale; Called Transform_fitted_gamma], inr out))
    by (vm_compute; reflexivity).
  split; [vm_compute; reflexivity | split; [exact Hrun | ]].
  exact (@fitted_output_never_longer Reference.collaborators c _ out Hrun).
Defined.

(** ** More on [percentage_of_normal] *)

Section PercentageOfNormalMore.

Context {C : Collaborators}.

(** What a returned result of [percentage_of_normal] tells. *)
Lemma percentage_of_normal_inv (monthly_values : array) (months_scale dsy csy cey : Z)
    (tr : list event) (out : array) :
  percentage_of_normal monthly_values months_scale dsy csy cey = (tr, inr out) ->
  dsy <= csy
  /\ (cey - csy + 1) * 12 <= Z.of_nat (length monthly_values)
  /\ exists sums,
       sum_to_scale monthly_values months_scale = inr sums
       /\ tr = [Called Sum_to_scale]
       /\ out = (percentage_at sums dsy csy cey <$> seq 0 (length sums)).
Proof.
  intros Hrun. pose proof Hrun as Hret. unfold percentage_of_normal in Hrun.
  destruct (Z.gtb_spec dsy csy) as [ | Hstart]; [discriminate | ].
  destruct (Z.gtb_spec ((cey - csy + 1) * 12) (Z.of_nat (length monthly_values)))
    as [ | Hspan]; [discriminate | ].
  inv_ok Hrun. inv_ok Hm.
  rewrite (percentage_of_normal_returns _ _ _ _ _ _ Hstart Hspan Hm) in Hret.
  injection Hret as <- <-. eauto 10.
Qed.

Lemma np_nanmean_all_missing (a : array) :
  (forall k, np_sum (replicate k zero) = zero) ->
  Forall (fun x => isnan x = true) a ->
  np_nanmean a = nan.
Proof.
  intros Hzero Hall. unfold np_nanmean.
  replace (map (fun x => if isnan x then zero else x) a)
    with (replicate (length a) zero).
  - replace (filter (fun x => isnan x = false) a) with (@nil float64).
    + now rewrite Hzero.
    + induction Hall as [ | x a Hx _ IH]; [reflexivity | ].
      rewrite filter_cons_False by congruence. exact IH.
  - induction Hall as [ | x a Hx _ IH]; [reflexivity | ].
    simpl. now rewrite Hx, IH.
Qed.

End PercentageOfNormalMore.

(** X14.  A missing scaled sum gives a missing percentage: where the scaler
    returned NaN (as it does for the first months of a scale above one), the
    result of [percentage_of_normal] is NaN, whatever the average of the
    calendar month. *)
Theorem percentage_of_normal_missing_sum `{Collaborators} (monthly_values : array)
    (months_scale dsy csy cey : Z) (tr : list event) (out sums : array) (i : nat) :
  percentage_of_normal monthly_values months_scale dsy csy cey = (tr, inr out) ->
  sum_to_scale monthly_values months_scale = inr sums ->
  sums !! i = Some nan ->
  out !! i = Some nan.
Proof.
  intros Hrun Hsums Hi.
  apply percentage_of_normal_inv in Hrun as (_ & _ & sums' & Hsums' & _ & ->).
  rewrite Hsums in Hsums'. injection Hsums' as <-.
  rewrite (lookup_percentages _ _ _ _ _ _ Hi). cbv zeta.
  destruct (ltb zero _); reflexivity.
Qed.

Lemma percentage_of_normal_missing_sum_witness :
  let values := Reference.f <$> [1; 2; 3; 4; 5; 6; 7; 8; 9; 10; 11; 12] in
  exists out,
    @percentage_of_normal Reference.collaborators values 3 2000 2000 2000
    = ([Called Sum_to_scale], inr out)
    /\ out !! 1%nat = Some nan.
Proof.
  intros values. eexists. split.
  - vm_compute. reflexivity.
  - apply (@percentage_of_normal_missing_sum Reference.collaborators values 3 2000
             2000 2000 [Called Sum_to_scale] _
             (Reference.sum_to_scale_model values 3) 1%nat);
      vm_compute; reflexivity.
Defined.

(** X15.  When every scaled sum of a calendar month in the calibration
    years is missing, the sum of an array of zeros being zero, the result
    of [percentage_of_normal] is missing at every index of that calendar
    month. *)
Theorem percentage_of_normal_month_without_calibration `{Collaborators}
    (monthly_values : array) (months_scale dsy csy cey : Z) (tr : list event)
    (out sums : array) (i : nat) :
  (forall k, np_sum (replicate k zero) = zero) ->
  csy <= cey ->
  percentage_of_normal monthly_values months_scale dsy csy cey = (tr, inr out) ->
  sum_to_scale monthly_values months_scale = inr sums ->
  Forall (fun x => isnan x = true) (calibration_month_sums sums dsy csy cey (i mod 12)) ->
  (i < length sums)%nat ->
  out !! i = Some nan.
Proof.
  intros Hzero Hwindow Hrun Hsums Hall Hi.
  apply percentage_of_normal_inv in Hrun as (Hstart & _ & sums' & Hsums' & _ & ->).
  rewrite Hsums in Hsums'. injection Hsums' as <-.
  destruct (lookup_lt_is_Some_2 sums i Hi) as [s Hs].
  rewrite (lookup_percentages _ _ _ _ _ _ Hs). cbv zeta.
  unfold calendar_month_average.
  rewrite stride_of_calibration_slice by (try apply Nat.mod_upper_bound; lia).
  now rewrite (np_nanmean_all_missing _ Hzero Hall).
Qed.

Lemma reference_sum_of_zeros (k : nat) :
  @np_sum Reference.collaborators (replicate k zero) = zero.
Proof. simpl. unfold Reference.sequential_sum. induction k; [reflexivity | exact IHk]. Qed.

Lemma percentage_of_normal_month_without_calibration_witness :
  let values :=
    nan :: (Reference.f <$> [2; 3; 4; 5; 6; 7; 8; 9; 10; 11; 12;
                             1; 2; 3; 4; 5; 6; 7; 8; 9; 10; 11; 12]) in
  exists out,
    @percentage_of_normal Reference.collaborators values 1 2000 2000 2000
    = ([Called Sum_to_scale], inr out)
    /\ out !! 12%nat = Some nan.
Proof.
  intros values. eexists. split.
  - vm_compute. reflexivity.
  - apply (@percentage_of_normal_month_without_calibration Reference.collaborators
             values 1 2000 2000 2000 [Called Sum_to_scale] _ values 12%nat).
    + exact reference_sum_of_zeros.
    + lia.
    + vm_compute. reflexivity.
    + vm_compute. reflexivity.
    + vm_compute. repeat constructor.
    + simpl. lia.
Defined.

(** X16.  A calibration period that starts after the last month of the data
    passes the validation when its length fits; the sum of an empty array
    being zero, every average is then missing and so is every value of the
    result. *)
Theorem percentage_of_normal_calibration_after_data `{Collaborators}
    (monthly_values : array) (months_scale dsy csy cey : Z) (sums : array) :
  np_sum [] = zero ->
  (cey - csy + 1) * 12 <= Z.of_nat (length monthly_values) ->
  sum_to_scale monthly_values months_scale = inr sums ->
  Z.of_nat (length sums) <= (csy - dsy) * 12 ->
  percentage_of_normal monthly_values months_scale dsy csy cey
  = ([Called Sum_to_scale], inr (replicate (length sums) nan)).
Proof.
  intros Hzero Hspan Hsums Hafter.
  rewrite (percentage_of_normal_returns _ _ _ _ _ sums) by (assumption || lia).
  do 2 f_equal.
  assert (Hempty : calibration_period_sums sums dsy csy cey = []).
  { unfold calibration_period_sums, py_slice.
    rewrite (slice_bound_nonneg _ ((csy - dsy) * 12)) by lia.
    rewrite drop_ge by lia. apply take_nil. }
  assert (Hat : forall i, percentage_at sums dsy csy cey i = nan).
  { intros i. unfold percentage_at, calendar_month_average, np_nanmean.
    rewrite Hempty. destruct (i mod 12)%nat; simpl; rewrite Hzero; reflexivity. }
  generalize (length sums). intros n.
  generalize 0%nat. induction n as [ | n IH]; intros k; [reflexivity | ].
  simpl. rewrite Hat. f_equal. apply IH.
Qed.

Lemma percentage_of_normal_calibration_after_data_witness :
  let values := Reference.f <$> [1; 2; 3; 4; 5; 6; 7; 8; 9; 10; 11; 12] in
  @percentage_of_normal Reference.collaborators values 1 1900 1981 1981
  = ([Called Sum_to_scale], inr (replicate (length values) nan)).
Proof.
  intros values.
  apply (@percentage_of_normal_calibration_after_data Reference.collaborators values 1
           1900 1981 1981 values).
  - reflexivity.
  - simpl. lia.
  - vm_compute. reflexivity.
  - simpl. lia.
Defined.

(** X17.  A calibration end year more than a year before the data start
    year is not rejected when the calibration start is valid: the end index
    of the calibration slice is then negative and counts from the end of the
    array, so the average of a calendar month is taken over the entries of
    that month from the calibration start index up to that many entries
    before the end. *)
Theorem calendar_month_average_negative_end `{Collaborators} (sums : array)
    (dsy csy cey : Z) (month : nat) :
  dsy <= csy ->
  (cey + 1 - dsy) * 12 < 0 ->
  (month < 12)%nat ->
  calendar_month_average sums dsy csy cey month
  = np_nanmean
      (select_at
         (fun j => (j mod 12 =? month)%nat
                   && ((csy - dsy) * 12 <=? Z.of_nat j)
                   && (Z.of_nat j <? Z.of_nat (length sums) + (cey + 1 - dsy) * 12))
         0 sums).
Proof.
  intros Hstart Hend Hmonth. unfold calendar_month_average. f_equal.
  unfold calibration_period_sums, py_stride, py_slice.
  rewrite (py_stride_aux_select 11 month 0), select_at_take, select_at_drop.
  apply select_at_ext. intros j Hj.
  unfold slice_bound.
  destruct (Z.ltb_spec ((csy - dsy) * 12) 0) as [ | _]; [lia | ].
  destruct (Z.ltb_spec ((csy - dsy) * 12 + (cey - csy + 1) * 12) 0) as [_ | ]; [ | lia].
  apply eq_true_iff_eq.
  rewrite !andb_true_iff, !Nat.leb_le, !Nat.ltb_lt, !Nat.eqb_eq, !Z.leb_le, !Z.ltb_lt.
  split; intros; zify; Z.to_euclidean_division_equations; lia.
Qed.

Lemma calendar_month_average_negative_end_witness :
  let sums := Reference.f <$> [1; 2; 3; 4; 5; 6; 7; 8; 9; 10; 11; 12;
                               13; 14; 15; 16; 17; 18; 19; 20; 21; 22; 23; 24] in
  @calendar_month_average Reference.collaborators sums 2000 2000 1998 0
  = @np_nanmean Reference.collaborators
      (select_at
         (fun j => (j mod 12 =? 0)%nat
                   && ((2000 - 2000) * 12 <=? Z.of_nat j)
                   && (Z.of_nat j <? Z.of_nat (length sums) + (1998 + 1 - 2000) * 12))
         0 sums).
Proof.
  intros sums.
  apply (@calendar_month_average_negative_end Reference.collaborators sums 2000 2000
           1998 0); lia.
Defined.

(** Such a window in full: with two years of data from 2000, a calibration
    from 2000 to 1998 passes the validation, and the values of 2000 alone
    serve as the normal. *)
Example percentage_of_normal_inverted_window :
  @percentage_of_normal Reference.collaborators
    (Reference.f <$> [2; 2; 2; 2; 2; 2; 2; 2; 2; 2; 2; 2;
                      6; 6; 6; 6; 6; 6; 6; 6; 6; 6; 6; 6])
    1 2000 2000 1998
  = ([Called Sum_to_scale],
     inr (replicate 12 (Reference.f 1) ++ replicate 12 (Reference.f 3))).
Proof. vm_compute. reflexivity. Qed.

(** X18.  An empty series is never evaluated against a calibration period
    of at least one year: [percentage_of_normal] raises a [ValueError] before
    the scaler is entered. *)
Theorem percentage_of_normal_empty_series `{Collaborators}
    (months_scale dsy csy cey : Z) :
  csy <= cey ->
  exists message,
    percentage_of_normal [] months_scale dsy csy cey = ([], inl (ValueError message)).
Proof.
  intros Hwindow. unfold percentage_of_normal.
  destruct (dsy >? csy); [eauto | ].
  destruct (Z.gtb_spec ((cey - csy + 1) * 12) (Z.of_nat (length (@nil float64))))
    as [ | Hle]; [eauto | ].
  simpl in Hle. lia.
Qed.

Lemma percentage_of_normal_empty_series_witness :
  exists message,
    @percentage_of_normal Reference.collaborators [] 3 1895
      default_calibration_start_year default_calibration_end_year
    = ([], inl (ValueError message)).
Proof.
  apply (@percentage_of_normal_empty_series Reference.collaborators 3 1895
           default_calibration_start_year default_calibration_end_year).
  unfold default_calibration_start_year, default_calibration_end_year. lia.
Defined.

(** ** Sizes of the arrays of [spei_pearson] *)

(** X19.  The size checks of [spei_pearson] are reached with a PET or a
    temperature array of one element only: against a precipitation array of
    another size, and with an otherwise valid combination of arguments,
    [spei_pearson] logs and raises the [ValueError] of incompatible arrays,
    on the temperature path before [pet] is called. *)
Theorem spei_pearson_incompatible_sizes `{Collaborators} (months_scale year : Z)
    (precips_mm : array) (value latitude : float64) (ci cf : Z) :
  length precips_mm <> 1%nat ->
  spei_pearson months_scale year precips_mm (Some [value]) None None ci cf
  = ([Log_error Incompatible_precipitation_and_PET_arrays],
     inl (ValueError Incompatible_precipitation_and_PET_arrays))
  /\ spei_pearson months_scale year precips_mm None (Some [value]) (Some latitude)
       ci cf
     = ([Log_error Incompatible_precipitation_and_temperature_arrays],
        inl (ValueError Incompatible_precipitation_and_temperature_arrays)).
Proof.
  intros Hsize. apply Nat.eqb_neq in Hsize.
  unfold spei_pearson. simpl. rewrite Hsize. split; reflexivity.
Qed.

Lemma spei_pearson_incompatible_sizes_witness :
  let precips := Reference.f <$> [70; 80; 90] in
  @spei_pearson Reference.collaborators 3 1895 precips (Some [Reference.f 10]) None
    None 1981 2010
  = ([Log_error Incompatible_precipitation_and_PET_arrays],
     inl (ValueError Incompatible_precipitation_and_PET_arrays))
  /\ @spei_pearson Reference.collaborators 3 1895 precips None
       (Some [Reference.f 10]) (Some (Reference.f 40)) 1981 2010
     = ([Log_error Incompatible_precipitation_and_temperature_arrays],
        inl (ValueError Incompatible_precipitation_and_temperature_arrays)).
Proof.
  intros precips.
  apply (@spei_pearson_incompatible_sizes Reference.collaborators 3 1895 precips
           (Reference.f 10) (Reference.f 40) 1981 2010).
  simpl. lia.
Defined.
